(** * fastify-multer: the configuration and dispatch layer (src/index.ts)

    A shallow embedding of [src/index.ts]: the [Multer] class, its entry
    points ([single], [array], [fields], [none], [any]), the per-request
    [setup] closure with its [filesLeft] counters and [wrappedFileFilter], and
    the [multer] factory.

    Mutable JavaScript objects live in an explicit store: every call of a
    [setup] closure allocates its own [filesLeft] object, and the
    [wrappedFileFilter] closure it returns keeps the address of that object. *)

From Stdlib Require Import ZArith NArith.
From stdpp Require Import base option list strings gmap.

Local Open Scope Z_scope.

(** ** JavaScript values used by the counters *)

(** The numbers that the counters hold: integers, [Infinity], and [NaN] (the
    value of [undefined - 1]). A JavaScript number is a double: integers up
    to 2^53 in absolute value are doubles, and sums and differences of such
    integers that stay in that range are exact. *)
Inductive JsNumber :=
| Int (z : Z)
| Infinity
| NaN.

(** Truthiness of a number: [0] and [NaN] are falsy. *)
Definition truthy (n : JsNumber) : bool :=
  match n with
  | Int z => negb (z =? 0)
  | Infinity => true
  | NaN => false
  end.

(** [v || 0] for a property read [v] ([None] is [undefined]). *)
Definition or_zero (v : option JsNumber) : JsNumber :=
  match v with
  | Some n => if truthy n then n else Int 0
  | None => Int 0
  end.

(** [n <= 0]. *)
Definition le_zero (n : JsNumber) : bool :=
  match n with
  | Int z => z <=? 0
  | Infinity => false
  | NaN => false
  end.

(** [v - 1] for a property read [v]. On integers it is the difference in
    [Z], which is the double that [-= 1] gives for every integer from
    -2^53 + 1 to 2^53; beyond that range doubles round ([2^53 + 2 - 1] is
    [2^53]) and the difference in [Z] is not what the source computes.
    Counters start at the declared [maxCount] and only go down
    ([counters_in_exact_range]), so with declarations up to 2^53 every
    decrement of a request is taken in the exact range. *)
Definition minus_one (v : option JsNumber) : JsNumber :=
  match v with
  | Some (Int z) => Int (z - 1)
  | Some Infinity => Infinity
  | Some NaN => NaN
  | None => NaN
  end.

(** An object created by [Object.create(null)] and used as a map from field
    names to numbers: it has no inherited properties. *)
Abbreviation FilesLeft := (gmap string JsNumber).

(** ** Errors and the file-filter protocol *)

Inductive JsError :=
| MulterError (code : string) (field : string)
| TypeError (message : string)
| Error (message : string).

(** Modelled from the spec: the [Field] declaration of [interfaces.ts], a
    module that [src/index.ts] imports. A field has a name and an optional
    maximum count, a positive integer whose absence means unbounded (spec,
    section 3); zero is allowed here as well. *)
Record Field := { name : string; maxCount : option N }.

(** Modelled from the spec: the [File] declaration of [interfaces.ts], a
    module that [src/index.ts] imports: the metadata of a file part (spec,
    section 3). This layer reads [fieldname] only. *)
Record File := {
  fieldname : string;
  originalname : string;
  encoding : string;
  mimetype : string
}.

(** The result shapes of [lib/file-appender], written in the source as the
    string literals ['NONE'], ['VALUE'], ['ARRAY'] and ['OBJECT']. *)
Inductive Strategy := NONE | VALUE | ARRAY | OBJECT.

Record DiskStorageOptions := { destination : string }.

(** ** The store *)

(** The store of [filesLeft] objects, addressed by allocation order. *)
Abbreviation Heap := (list FilesLeft).

Definition M (A : Type) : Type := Heap → A * Heap.

Definition ret {A} (a : A) : M A := λ h, (a, h).

Definition bind {A B} (c : M A) (k : A → M B) : M B :=
  λ h, let '(a, h') := c h in k a h'.

Notation "'let*' x ':=' c1 'in' c2" := (bind c1 (λ x, c2))
  (at level 10, x name, c1 at level 100, c2 at level 200).

(** [Object.create(null)]: a new empty object at a fresh address. *)
Definition createObject : M nat := λ h, (length h, h ++ [∅]).

(** [obj[key]]. *)
Definition getProp (obj : nat) (key : string) : M (option JsNumber) :=
  λ h, (h !! obj ≫= (.!! key), h).

(** [obj[key] = v]. *)
Definition setProp (obj : nat) (key : string) (v : JsNumber) : M unit :=
  λ h, (tt, alter (<[key := v]>) obj h).

(** [l.forEach(f)]. *)
Fixpoint forEach {A} (l : list A) (f : A → M unit) : M unit :=
  match l with
  | [] => ret tt
  | x :: l' => let* _ := f x in forEach l' f
  end.

(** Calls [f] on each element in order and collects the results. *)
Fixpoint mapM {A B} (f : A → M B) (l : list A) : M (list B) :=
  match l with
  | [] => ret []
  | x :: l' => let* y := f x in let* ys := mapM f l' in ret (y :: ys)
  end.

Section Multer.

(** What [src/index.ts] imports from other modules: the request type of the
    host, the [limits] option, the storage engines with their two builders,
    the content parser, and (further down) [makeBeforeHandler] of
    [lib/make-beforehandler]. *)
Context {FastifyRequest Limits StorageEngine ContentParser : Type}.
Variable diskStorage : DiskStorageOptions → StorageEngine.
Variable memoryStorage : unit → StorageEngine.
Variable fastifyPlugin : ContentParser.

(** What a filter does when it is called: it may be handed on to the caller's
    filter, and the callback [cb(error, acceptFile)] may be invoked. *)
Inductive Event :=
| CallFileFilter (req : FastifyRequest) (file : File)
| CallCb (error : option JsError) (acceptFile : option bool).

(** A caller-supplied filter [(req, file, cb) => void], given by what its
    body does. *)
Definition FileFilter : Type := FastifyRequest → File → list Event.

(** A call [fileFilter(req, file, cb)]. *)
Definition callFileFilter (fileFilter : FileFilter)
    (req : FastifyRequest) (file : File) : list Event :=
  CallFileFilter req file :: fileFilter req file.

Record Options := {
  options_storage : option StorageEngine;
  options_dest : option string;
  options_limits : option Limits;
  options_preservePath : option bool;
  options_fileFilter : option FileFilter
}.

(** The object literal [{}]. *)
Definition emptyOptions : Options :=
  {| options_storage := None; options_dest := None; options_limits := None;
     options_preservePath := None; options_fileFilter := None |}.

Definition allowAll : FileFilter :=
  λ req file, [CallCb None (Some true)].

Record Multer := {
  storage : StorageEngine;
  limits : option Limits;
  preservePath : option bool;
  fileFilter : FileFilter;
  contentParser : ContentParser
}.

(** Truthiness of an optional string property: [undefined] and the empty
    string are falsy. *)
Definition truthy_string (s : option string) : bool :=
  match s with
  | Some s => negb (String.eqb s "")
  | None => false
  end.

(** [new Multer(options)]. An engine object and a filter function are truthy
    whenever they are present. *)
Definition new_Multer (options : Options) : Multer :=
  {| storage :=
       match options_storage options with
       | Some engine => engine
       | None =>
           if truthy_string (options_dest options)
           then diskStorage {| destination := default "" (options_dest options) |}
           else memoryStorage tt
       end;
     limits := options_limits options;
     preservePath := options_preservePath options;
     fileFilter := default allowAll (options_fileFilter options);
     contentParser := fastifyPlugin |}.

(** The filter that a setup installs: called with a request and a file, it
    acts on the store and on the callback. *)
Definition InstalledFilter : Type := FastifyRequest → File → M (list Event).

Record SetupResult := {
  setup_limits : option Limits;
  setup_preservePath : option bool;
  setup_storage : StorageEngine;
  setup_fileFilter : InstalledFilter;
  setup_fileStrategy : Strategy
}.

Definition Setup : Type := M SetupResult.

Context {FastifyMiddleware : Type}.
Variable makeBeforeHandler : Setup → FastifyMiddleware.

(** The closure [wrappedFileFilter] over the caller's [fileFilter] and the
    object [filesLeft]. *)
Definition wrappedFileFilter (fileFilter : FileFilter) (filesLeft : nat)
    : InstalledFilter :=
  λ req file,
    let* left := getProp filesLeft (fieldname file) in
    if le_zero (or_zero left)
    then ret [CallCb (Some (MulterError "LIMIT_UNEXPECTED_FILE" (fieldname file))) None]
    else
      let* current := getProp filesLeft (fieldname file) in
      let* _ := setProp filesLeft (fieldname file) (minus_one current) in
      ret (callFileFilter fileFilter req file).

(** The closure [setup] of [_makeBeforeHandler]. *)
Definition setup (this : Multer) (fields : list Field) (fileStrategy : Strategy)
    : Setup :=
  let* filesLeft := createObject in
  let* _ := forEach fields (λ field,
      match maxCount field with
      | Some n => setProp filesLeft (name field) (Int (Z.of_N n))
      | None => setProp filesLeft (name field) Infinity
      end) in
  ret {| setup_limits := limits this;
         setup_preservePath := preservePath this;
         setup_storage := storage this;
         setup_fileFilter := wrappedFileFilter (fileFilter this) filesLeft;
         setup_fileStrategy := fileStrategy |}.

Definition _makeBeforeHandler (this : Multer) (fields : list Field)
    (fileStrategy : Strategy) : FastifyMiddleware :=
  makeBeforeHandler (setup this fields fileStrategy).

Definition single (this : Multer) (n : string) : FastifyMiddleware :=
  _makeBeforeHandler this [{| name := n; maxCount := Some 1%N |}] VALUE.

Definition array (this : Multer) (n : string) (max : option N)
    : FastifyMiddleware :=
  _makeBeforeHandler this [{| name := n; maxCount := max |}] ARRAY.

Definition fields (this : Multer) (fs : list Field) : FastifyMiddleware :=
  _makeBeforeHandler this fs OBJECT.

Definition none (this : Multer) : FastifyMiddleware :=
  _makeBeforeHandler this [] NONE.

(** The closure [setup] of [any]: the caller's filter is installed as it
    is. *)
Definition any_setup (this : Multer) : Setup :=
  ret {| setup_limits := limits this;
         setup_preservePath := preservePath this;
         setup_storage := storage this;
         setup_fileFilter := λ req file, ret (callFileFilter (fileFilter this) req file);
         setup_fileStrategy := ARRAY |}.

Definition any (this : Multer) : FastifyMiddleware :=
  makeBeforeHandler (any_setup this).

(** The argument of the factory, as the run-time checks see it. *)
Inductive JsValue :=
| js_undefined
| js_null
| js_boolean (b : bool)
| js_number (n : JsNumber)
| js_string (s : string)
| js_symbol
| js_bigint (z : Z)
| js_function
| js_object (o : Options).

Definition typeof (v : JsValue) : string :=
  match v with
  | js_undefined => "undefined"
  | js_null => "object"
  | js_boolean _ => "boolean"
  | js_number _ => "number"
  | js_string _ => "string"
  | js_symbol => "symbol"
  | js_bigint _ => "bigint"
  | js_function => "function"
  | js_object _ => "object"
  end.

Definition is_undefined (v : JsValue) : bool :=
  match v with js_undefined => true | _ => false end.

Definition is_null (v : JsValue) : bool :=
  match v with js_null => true | _ => false end.

(** The properties read from an options value; a value without properties
    reads as [{}]. *)
Definition as_options (v : JsValue) : Options :=
  match v with js_object o => o | _ => emptyOptions end.

(** The factory; [inl e] is [throw e]. *)
Definition multer (options : JsValue) : JsError + Multer :=
  if is_undefined options then inr (new_Multer emptyOptions)
  else if String.eqb (typeof options) "object" && negb (is_null options)
  then inr (new_Multer (as_options options))
  else inl (TypeError "Expected object for argument options").

(** ** Requests *)

(** The file parts of one request, handed in order to the filter that a
    setup installed. *)
Definition feed (s : SetupResult) (req : FastifyRequest) (files : list File)
    : M (list (list Event)) :=
  mapM (setup_fileFilter s req) files.

(** One call of a setup closure followed by the file parts of the request it
    was called for. *)
Definition request (st : Setup) (req : FastifyRequest) (files : list File)
    : M (list (list Event)) :=
  let* s := st in feed s req files.

(** What the limit check answers when it turns a file part down. *)
Definition rejection (file : File) : list Event :=
  [CallCb (Some (MulterError "LIMIT_UNEXPECTED_FILE" (fieldname file))) None].

(** The counter that a declaration writes. *)
Definition budget (field : Field) : JsNumber :=
  match maxCount field with
  | Some n => Int (Z.of_N n)
  | None => Infinity
  end.

(** The declaration in force for a field name: the last one in the list. *)
Definition declaration (fs : list Field) (n : string) : option Field :=
  last (filter (λ f, name f = n) fs).

(** How many of the first [i] file parts name the field [n]. *)
Definition earlier (n : string) (files : list File) (i : nat) : nat :=
  length (filter (λ f, fieldname f = n) (take i files)).

(** The content of [filesLeft] once [forEach] has run over the fields. *)
Definition initial (fs : list Field) : FilesLeft :=
  foldl (λ filesLeft field, <[name field := budget field]> filesLeft) ∅ fs.

(** The effect of one call of [wrappedFileFilter] on its own object. *)
Definition enforce (fileFilter : FileFilter) (filesLeft : FilesLeft)
    (req : FastifyRequest) (file : File) : list Event * FilesLeft :=
  if le_zero (or_zero (filesLeft !! fieldname file))
  then (rejection file, filesLeft)
  else (callFileFilter fileFilter req file,
        <[fieldname file := minus_one (filesLeft !! fieldname file)]> filesLeft).

(** The effect of a sequence of calls on that object. *)
Fixpoint enforceAll (fileFilter : FileFilter) (filesLeft : FilesLeft)
    (req : FastifyRequest) (files : list File) : list (list Event) * FilesLeft :=
  match files with
  | [] => ([], filesLeft)
  | file :: rest =>
      let '(ev, filesLeft') := enforce fileFilter filesLeft req file in
      let '(evs, final) := enforceAll fileFilter filesLeft' req rest in
      (ev :: evs, final)
  end.

(** The answer to the [i]-th part naming a field, from the counter [v] the
    field started with and the number [e] of earlier parts naming it. *)
Definition verdict (fileFilter : FileFilter) (v : option JsNumber) (e : nat)
    (req : FastifyRequest) (file : File) : list Event :=
  match v with
  | Some (Int c) =>
      if Z.of_nat e <? c then callFileFilter fileFilter req file else rejection file
  | Some Infinity => callFileFilter fileFilter req file
  | _ => rejection file
  end.

(** ** Several requests on one middleware *)

(** What happens at a middleware while requests are in flight: the handler
    calls the setup closure for a request that has arrived (requests are
    numbered in that order), or the next file part of a request reaches the
    filter that was installed for it. *)
Inductive Step :=
| NewRequest
| FilePart (r : nat) (file : File).

(** The run of a schedule on the shared store; [reqs r] is the request object
    of the request numbered [r], [handlers] holds what the setup calls made so
    far returned. Each answer is tagged with the request it belongs to; a
    part for a request that was not set up has no filter to go to. *)
Fixpoint serve (st : Setup) (reqs : nat → FastifyRequest)
    (handlers : list SetupResult) (schedule : list Step)
    : M (list (nat * list Event)) :=
  match schedule with
  | [] => ret []
  | NewRequest :: rest =>
      let* s := st in serve st reqs (handlers ++ [s]) rest
  | FilePart r file :: rest =>
      match handlers !! r with
      | Some s =>
          let* ev := setup_fileFilter s (reqs r) file in
          let* out := serve st reqs handlers rest in
          ret ((r, ev) :: out)
      | None => serve st reqs handlers rest
      end
  end.

(** The answers given to the request numbered [r]. *)
Definition answers (r : nat) (out : list (nat * list Event)) : list (list Event) :=
  (filter (λ p, p.1 = r) out).*2.

(** The file parts of the request numbered [r] that reach its filter, when
    [known] requests were set up before the schedule starts. *)
Fixpoint parts (r known : nat) (schedule : list Step) : list File :=
  match schedule with
  | [] => []
  | NewRequest :: rest => parts r (S known) rest
  | FilePart r' file :: rest =>
      if decide (r' = r ∧ (r < known)%nat)
      then file :: parts r known rest
      else parts r known rest
  end.

(** The counters that a declaration list allows: no [NaN] and no negative
    integer. *)
Definition nonneg (c : JsNumber) : Prop :=
  match c with
  | Int z => 0 ≤ z
  | Infinity => True
  | NaN => False
  end.

(** A counter that lets a part through. *)
Definition positive_count (c : JsNumber) : Prop :=
  match c with
  | Int z => 0 < z
  | Infinity => True
  | NaN => False
  end.

(** ** Counting what goes through *)

(** Whether an answer hands the part to the caller's filter. *)
Definition passed (ev : list Event) : bool :=
  match ev with
  | CallFileFilter _ _ :: _ => true
  | _ => false
  end.

(** How many file parts name the field [n]. *)
Definition occurrences (n : string) (files : list File) : nat :=
  length (filter (λ f, fieldname f = n) files).

(** The answers given to the parts that name the field [n], in order. *)
Definition answersFor (n : string) (files : list File) (out : list (list Event))
    : list (list Event) :=
  (filter (λ p, fieldname p.1 = n) (zip files out)).*2.

(** How many answers hand their part to the caller's filter. *)
Definition passedCount (out : list (list Event)) : nat :=
  length (filter (λ ev, passed ev = true) out).

(** The number of setup calls in a schedule. *)
Fixpoint setups (schedule : list Step) : nat :=
  match schedule with
  | [] => 0
  | NewRequest :: rest => S (setups rest)
  | FilePart _ _ :: rest => setups rest
  end.

(** The integer that a counter stands for in a sum; [Infinity] and [NaN]
    count as nothing. *)
Definition counterValue (c : JsNumber) : Z :=
  match c with
  | Int z => z
  | _ => 0
  end.

(** The sum of the integer counters of a [filesLeft] object. *)
Definition remaining (filesLeft : FilesLeft) : Z :=
  map_fold (λ _ c total, counterValue c + total) 0 filesLeft.

(** The sum of the [maxCount]s of a declaration list. *)
Definition declaredTotal (fs : list Field) : Z :=
  foldr (λ f total, Z.of_N (default 0%N (maxCount f)) + total) 0 fs.

(** A counter in the range where [-= 1] is exact: an integer from 0 to 2^53,
    or [Infinity]. *)
Definition exact (c : JsNumber) : Prop :=
  match c with
  | Int z => 0 ≤ z ≤ 2 ^ 53
  | Infinity => True
  | NaN => False
  end.

(** A counter that is an integer and not negative. *)
Definition bounded (c : JsNumber) : Prop :=
  match c with
  | Int z => 0 ≤ z
  | _ => False
  end.

(** ** The store, step by step *)

Lemma alter_last (f : FilesLeft → FilesLeft) (h : Heap) (o : FilesLeft) :
  alter f (length h) (h ++ [o]) = h ++ [f o].
Proof.
  rewrite alter_app_r_alt by lia.
  by replace (length h - length h)%nat with 0%nat by lia.
Qed.

Lemma alter_present (f : FilesLeft → FilesLeft) (h : Heap) (a : nat) (o : FilesLeft) :
  h !! a = Some o → alter f a h = <[a := f o]> h.
Proof.
  intros Ha. apply list_eq. intros j.
  destruct (decide (a = j)) as [<-|Hne].
  - rewrite list_lookup_alter_eq, Ha.
    by rewrite list_lookup_insert_eq by (by eapply lookup_lt_Some).
  - by rewrite list_lookup_alter_ne, list_lookup_insert_ne.
Qed.

Lemma forEach_fields (fs : list Field) (h : Heap) (o : FilesLeft) :
  forEach fs (λ field,
      match maxCount field with
      | Some n => setProp (length h) (name field) (Int (Z.of_N n))
      | None => setProp (length h) (name field) Infinity
      end) (h ++ [o])
  = (tt, h ++ [foldl (λ filesLeft field, <[name field := budget field]> filesLeft) o fs]).
Proof.
  revert o. induction fs as [|f fs IH]; intros o; [done|].
  cbn [forEach foldl]. unfold bind at 1.
  replace (match maxCount f with
           | Some n => setProp (length h) (name f) (Int (Z.of_N n))
           | None => setProp (length h) (name f) Infinity
           end) with (setProp (length h) (name f) (budget f))
    by (unfold budget; by destruct (maxCount f)).
  unfold setProp at 1. rewrite alter_last. apply IH.
Qed.

Lemma setup_run (this : Multer) (fs : list Field) (strategy : Strategy) (h : Heap) :
  setup this fs strategy h
  = ({| setup_limits := limits this;
        setup_preservePath := preservePath this;
        setup_storage := storage this;
        setup_fileFilter := wrappedFileFilter (fileFilter this) (length h);
        setup_fileStrategy := strategy |},
     h ++ [initial fs]).
Proof.
  unfold setup, bind, createObject. by rewrite forEach_fields.
Qed.

Lemma wrappedFileFilter_run (ff : FileFilter) (a : nat) (h : Heap) (o : FilesLeft)
    (req : FastifyRequest) (file : File) :
  h !! a = Some o →
  wrappedFileFilter ff a req file h
  = ((enforce ff o req file).1, <[a := (enforce ff o req file).2]> h).
Proof.
  intros Ha. unfold wrappedFileFilter, enforce, bind, getProp, setProp, ret.
  rewrite Ha. cbn [mbind option_bind].
  destruct (le_zero (or_zero (o !! fieldname file))); cbn [fst snd].
  - by rewrite (list_insert_id _ _ _ Ha).
  - by rewrite (alter_present _ _ _ _ Ha), Ha.
Qed.

Lemma mapM_wrappedFileFilter (ff : FileFilter) (a : nat) (req : FastifyRequest)
    (files : list File) (h : Heap) (o : FilesLeft) :
  h !! a = Some o →
  mapM (wrappedFileFilter ff a req) files h
  = ((enforceAll ff o req files).1, <[a := (enforceAll ff o req files).2]> h).
Proof.
  revert h o. induction files as [|file rest IH]; intros h o Ha.
  - cbn. by rewrite (list_insert_id _ _ _ Ha).
  - cbn [mapM enforceAll]. unfold bind at 1.
    rewrite (wrappedFileFilter_run _ _ _ _ _ _ Ha).
    destruct (enforce ff o req file) as [ev o'] eqn:Henf. cbn [fst snd].
    unfold bind at 1.
    rewrite (IH (<[a := o']> h) o')
      by (apply list_lookup_insert_eq; by eapply lookup_lt_Some).
    destruct (enforceAll ff o' req rest) as [evs final]. cbn [fst snd].
    unfold ret. by rewrite list_insert_insert_eq.
Qed.

Lemma request_setup_run (this : Multer) (fs : list Field) (strategy : Strategy)
    (req : FastifyRequest) (files : list File) (h : Heap) :
  request (setup this fs strategy) req files h
  = ((enforceAll (fileFilter this) (initial fs) req files).1,
     h ++ [(enforceAll (fileFilter this) (initial fs) req files).2]).
Proof.
  unfold request, bind. rewrite setup_run. unfold feed. cbn [setup_fileFilter].
  rewrite (mapM_wrappedFileFilter _ _ _ _ _ (initial fs))
    by (by rewrite lookup_app_r, Nat.sub_diag by lia).
  f_equal. rewrite insert_app_r_alt by lia.
  by rewrite Nat.sub_diag.
Qed.

(** ** The counters, in terms of the declarations and of the parts seen *)

Lemma initial_snoc (fs : list Field) (f : Field) :
  initial (fs ++ [f]) = <[name f := budget f]> (initial fs).
Proof.
  unfold initial. generalize (∅ : FilesLeft).
  induction fs as [|g fs IH]; intros o; [done|]. cbn. apply IH.
Qed.

Lemma declaration_snoc (fs : list Field) (f : Field) (n : string) :
  declaration (fs ++ [f]) n = if decide (name f = n) then Some f else declaration fs n.
Proof.
  unfold declaration. rewrite filter_app.
  destruct (decide (name f = n)) as [Heq|Hne].
  - rewrite filter_cons_True by done. cbn. apply last_snoc.
  - rewrite filter_cons_False by done. cbn. by rewrite app_nil_r.
Qed.

Lemma initial_lookup (fs : list Field) (n : string) :
  initial fs !! n = budget <$> declaration fs n.
Proof.
  induction fs as [|f fs IH] using rev_ind; [done|].
  rewrite initial_snoc, declaration_snoc, lookup_insert.
  destruct (decide (name f = n)); [done|apply IH].
Qed.

Lemma declaration_None (fs : list Field) (n : string) :
  declaration fs n = None ↔ ∀ f, f ∈ fs → name f ≠ n.
Proof.
  unfold declaration. rewrite last_None. split.
  - intros Hnil f Hin Heq.
    by apply (filter_nil_not_elem_of _ _ f Hnil).
  - intros Hno. induction fs as [|g fs IH]; [done|].
    rewrite filter_cons_False by (apply Hno; left).
    apply IH. intros f Hin. apply Hno. by right.
Qed.

Lemma declaration_elem_of (fs : list Field) (n : string) (f : Field) :
  declaration fs n = Some f → f ∈ fs ∧ name f = n.
Proof.
  unfold declaration. intros Hlast.
  apply last_Some_elem_of in Hlast.
  apply list_elem_of_filter in Hlast. tauto.
Qed.

Lemma earlier_0 (n : string) (files : list File) : earlier n files 0 = 0%nat.
Proof. unfold earlier. by rewrite take_0. Qed.

Lemma earlier_S_same (n : string) (file : File) (rest : list File) (i : nat) :
  fieldname file = n → earlier n (file :: rest) (S i) = S (earlier n rest i).
Proof.
  intros Heq. unfold earlier. cbn [take].
  by rewrite filter_cons_True by done.
Qed.

Lemma earlier_S_other (n : string) (file : File) (rest : list File) (i : nat) :
  fieldname file ≠ n → earlier n (file :: rest) (S i) = earlier n rest i.
Proof.
  intros Hne. unfold earlier. cbn [take].
  by rewrite filter_cons_False by done.
Qed.

(** A call for another field leaves the counter of [n] alone. *)
Lemma enforce_other (ff : FileFilter) (o : FilesLeft) (req : FastifyRequest)
    (file : File) (n : string) :
  fieldname file ≠ n → (enforce ff o req file).2 !! n = o !! n.
Proof.
  intros Hne. unfold enforce.
  destruct (le_zero (or_zero (o !! fieldname file))); cbn [snd]; [done|].
  by rewrite lookup_insert_ne.
Qed.

(** The answer to one call and the counter it leaves, by the counter found. *)
Lemma enforce_same (ff : FileFilter) (o : FilesLeft) (req : FastifyRequest) (file : File) :
  (enforce ff o req file).1 = verdict ff (o !! fieldname file) 0 req file
  ∧ ∀ e : nat,
      verdict ff ((enforce ff o req file).2 !! fieldname file) e req file
      = verdict ff (o !! fieldname file) (S e) req file.
Proof.
  unfold enforce, verdict.
  destruct (o !! fieldname file) as [[c| |]|] eqn:Hc; cbn [or_zero truthy le_zero].
  - destruct (Z.eqb_spec c 0) as [->|Hc0]; cbn [negb le_zero fst snd].
    + cbn. split; [done|]. intros e. rewrite Hc.
      by destruct (Z.ltb_spec (Z.of_nat (S e)) 0); [lia|];
         destruct (Z.ltb_spec (Z.of_nat e) 0); [lia|].
    + destruct (Z.leb_spec c 0) as [Hle|Hgt]; cbn [fst snd].
      * destruct (Z.ltb_spec (Z.of_nat 0) c); [lia|]. split; [done|].
        intros e. rewrite Hc.
        by destruct (Z.ltb_spec (Z.of_nat (S e)) c); [lia|];
           destruct (Z.ltb_spec (Z.of_nat e) c); [lia|].
      * destruct (Z.ltb_spec (Z.of_nat 0) c); [|lia]. split; [done|].
        intros e. rewrite lookup_insert_eq. cbn [minus_one].
        destruct (Z.ltb_spec (Z.of_nat e) (c - 1));
          destruct (Z.ltb_spec (Z.of_nat (S e)) c); (done || lia).
  - cbn. split; [done|]. intros e. by rewrite lookup_insert_eq.
  - cbn. split; [done|]. intros e. by rewrite Hc.
  - cbn. split; [done|]. intros e. by rewrite Hc.
Qed.

(** The answer to the [i]-th part of a sequence. *)
Lemma enforceAll_lookup (ff : FileFilter) (req : FastifyRequest) (files : list File) :
  ∀ (o : FilesLeft) (i : nat) (file : File),
    files !! i = Some file →
    (enforceAll ff o req files).1 !! i
    = Some (verdict ff (o !! fieldname file) (earlier (fieldname file) files i) req file).
Proof.
  induction files as [|g rest IH]; intros o i file Hi; [done|].
  cbn [enforceAll].
  destruct (enforce ff o req g) as [ev o'] eqn:Henf.
  destruct (enforceAll ff o' req rest) as [evs final] eqn:Hall. cbn [fst].
  destruct i as [|i].
  - injection Hi as ->. cbn [lookup list_lookup]. rewrite earlier_0.
    f_equal. pose proof (enforce_same ff o req file) as [H0 _].
    by rewrite Henf in H0.
  - cbn in Hi. change ((ev :: evs) !! S i) with (evs !! i).
    specialize (IH o' i file Hi). rewrite Hall in IH. cbn [fst] in IH.
    rewrite IH. f_equal.
    destruct (decide (fieldname g = fieldname file)) as [Heq|Hne].
    + rewrite (earlier_S_same _ _ _ _ Heq).
      pose proof (enforce_same ff o req g) as [_ HS].
      rewrite Henf in HS. cbn [snd] in HS. rewrite Heq in HS.
      specialize (HS (earlier (fieldname file) rest i)).
      unfold verdict in *.
      destruct (o' !! fieldname file) as [[c| |]|], (o !! fieldname file) as [[d| |]|];
        repeat case_match; done.
    + rewrite (earlier_S_other _ _ _ _ Hne).
      pose proof (enforce_other ff o req g _ Hne) as Ho.
      rewrite Henf in Ho. cbn [snd] in Ho. by rewrite Ho.
Qed.

Lemma enforceAll_length (ff : FileFilter) (req : FastifyRequest) (files : list File)
    (o : FilesLeft) :
  length (enforceAll ff o req files).1 = length files.
Proof.
  revert o. induction files as [|g rest IH]; intros o; [done|].
  cbn [enforceAll]. destruct (enforce ff o req g) as [ev o'].
  specialize (IH o'). destruct (enforceAll ff o' req rest). cbn in *. by rewrite IH.
Qed.

(** ** The constructor and the factory *)

(** C2 (as amended). An explicit storage engine in the options is used;
    otherwise a destination that is not the empty string gives a disk engine
    for that destination; with neither, and with an empty destination, the
    in-memory engine is used. *)
Theorem storage_precedence (options : Options) :
  (∀ engine, options_storage options = Some engine →
     storage (new_Multer options) = engine)
  ∧ (∀ d, options_storage options = None → options_dest options = Some d →
       d ≠ "" → storage (new_Multer options) = diskStorage {| destination := d |})
  ∧ (options_storage options = None → options_dest options = None →
       storage (new_Multer options) = memoryStorage tt)
  ∧ (options_storage options = None → options_dest options = Some "" →
       storage (new_Multer options) = memoryStorage tt).
Proof.
  unfold new_Multer. cbn [storage].
  repeat split.
  - by intros engine ->.
  - intros d -> -> Hd. cbn [truthy_string default].
    by destruct (String.eqb_spec d "").
  - by intros -> ->.
  - by intros -> ->.
Qed.

(** C3. When the options carry no [fileFilter], the filter of the instance
    answers every request and every file by calling the callback once, with
    no error and with [true]. *)
Theorem default_filter_accepts (options : Options) (req : FastifyRequest) (file : File) :
  options_fileFilter options = None →
  fileFilter (new_Multer options) req file = [CallCb None (Some true)].
Proof. unfold new_Multer. cbn [fileFilter]. by intros ->. Qed.

(** C8 (as amended). An argument that is neither [undefined] nor a non-null
    object makes the factory throw a TypeError with the message
    ['Expected object for argument options'], which is not an error of the
    [MulterError] kind and carries no code; for [undefined] the factory
    returns the instance it returns for the empty options object. *)
Theorem multer_argument :
  (∀ v, v ≠ js_undefined → ¬ (typeof v = "object" ∧ v ≠ js_null) →
     multer v = inl (TypeError "Expected object for argument options"))
  ∧ multer js_undefined = inr (new_Multer emptyOptions)
  ∧ multer js_undefined = multer (js_object emptyOptions).
Proof.
  split; [|done].
  intros v Hu Ho. destruct v; try done.
  - exfalso. by apply Ho.
Qed.

(** ** The limit check *)

(** C4 (as amended). A setup call puts a new object [filesLeft] at a fresh
    address and installs the wrapped filter over it. The object maps every
    declared field name to the count of the last declaration of that name,
    which is its [maxCount] when that is a number and [Infinity] when it is
    absent; a name that no declaration has is not a key, and reads as a
    count of zero. *)
Theorem limit_state_initialized (this : Multer) (fs : list Field)
    (strategy : Strategy) (h : Heap) :
  ∃ filesLeft : FilesLeft,
    (setup this fs strategy h).2 = h ++ [filesLeft]
    ∧ setup_fileFilter (setup this fs strategy h).1
      = wrappedFileFilter (fileFilter this) (length h)
    ∧ (∀ f k, declaration fs (name f) = Some f → maxCount f = Some k →
         filesLeft !! name f = Some (Int (Z.of_N k)))
    ∧ (∀ f, declaration fs (name f) = Some f → maxCount f = None →
         filesLeft !! name f = Some Infinity)
    ∧ (∀ n, (∀ f, f ∈ fs → name f ≠ n) →
         filesLeft !! n = None ∧ or_zero (filesLeft !! n) = Int 0).
Proof.
  exists (initial fs). rewrite setup_run. cbn [fst snd setup_fileFilter].
  split; [done|]. split; [done|]. split; [|split].
  - intros f k Hd Hk. rewrite initial_lookup, Hd. cbn. unfold budget. by rewrite Hk.
  - intros f Hd Hk. rewrite initial_lookup, Hd. cbn. unfold budget. by rewrite Hk.
  - intros n Hno. rewrite initial_lookup.
    by apply declaration_None in Hno as ->.
Qed.

(** C1 (as amended). Take a setup call for any declarations and any sequence
    of file parts handed to the filter it installed. When the last
    declaration of a part's field name has [maxCount = k], the part goes on
    to the caller's filter exactly when fewer than [k] earlier parts of the
    sequence name that field; every later part of that field, and every part
    whose field name is not declared, is answered by calling the callback
    with a LIMIT_UNEXPECTED_FILE error for that field name and nothing else:
    the caller's filter is not called and the callback reports no
    acceptance. *)
Theorem first_k_parts_pass (this : Multer) (fs : list Field) (strategy : Strategy)
    (h : Heap) (req : FastifyRequest) (files : list File) (i : nat) (file : File) :
  files !! i = Some file →
  (∀ f k, declaration fs (fieldname file) = Some f → maxCount f = Some k →
     (request (setup this fs strategy) req files h).1 !! i
     = Some (if decide (earlier (fieldname file) files i < N.to_nat k)%nat
             then callFileFilter (fileFilter this) req file
             else rejection file))
  ∧ ((∀ f, f ∈ fs → name f ≠ fieldname file) →
     (request (setup this fs strategy) req files h).1 !! i = Some (rejection file)).
Proof.
  intros Hi. rewrite request_setup_run. cbn [fst].
  rewrite (enforceAll_lookup _ _ _ _ _ _ Hi), initial_lookup. split.
  - intros f k -> Hk. cbn. unfold budget. rewrite Hk. cbn [verdict].
    f_equal. case_decide; destruct (Z.ltb_spec (Z.of_nat (earlier (fieldname file) files i))
      (Z.of_N k)); (done || lia).
  - intros Hno. by apply declaration_None in Hno as ->.
Qed.

Lemma earlier_pos (n : string) (files : list File) (i j : nat) (g : File) :
  (j < i)%nat → files !! j = Some g → fieldname g = n → (0 < earlier n files i)%nat.
Proof.
  intros Hji Hj Hn. unfold earlier.
  assert (g ∈ filter (λ f, fieldname f = n) (take i files)) as Hin.
  { apply list_elem_of_filter. split; [done|].
    apply list_elem_of_lookup. exists j. by rewrite lookup_take_lt. }
  destruct (filter _ _); [by apply not_elem_of_nil in Hin|cbn; lia].
Qed.

(** C5. [single(name)] builds its middleware from the setup with the one
    declaration [{name, maxCount: 1}] and the VALUE strategy; after any call
    of that setup, a file part for [name] that comes after another file part
    for [name] is answered by the limit check with LIMIT_UNEXPECTED_FILE for
    that field, and the caller's filter is not called for it. *)
Theorem single_rejects_second_file (this : Multer) (n : string) (h : Heap)
    (req : FastifyRequest) (files : list File) (i j : nat) (first second : File) :
  (j < i)%nat →
  files !! j = Some first → fieldname first = n →
  files !! i = Some second → fieldname second = n →
  single this n
  = makeBeforeHandler (setup this [{| name := n; maxCount := Some 1%N |}] VALUE)
  ∧ setup_fileStrategy (setup this [{| name := n; maxCount := Some 1%N |}] VALUE h).1
    = VALUE
  ∧ (request (setup this [{| name := n; maxCount := Some 1%N |}] VALUE) req files h).1 !! i
    = Some [CallCb (Some (MulterError "LIMIT_UNEXPECTED_FILE" n)) None].
Proof.
  intros Hji Hj Hfirst Hi Hsecond. split; [done|]. split; [by rewrite setup_run|].
  rewrite request_setup_run. cbn [fst].
  rewrite (enforceAll_lookup _ _ _ _ _ _ Hi), Hsecond.
  pose proof (earlier_pos n files i j first Hji Hj Hfirst) as Hpos.
  unfold initial. cbn [foldl name budget maxCount].
  rewrite lookup_insert_eq. cbn [verdict].
  destruct (Z.ltb_spec (Z.of_nat (earlier n files i)) (Z.of_N 1)); [lia|].
  unfold rejection. by rewrite Hsecond.
Qed.

(** C6. [none()] builds its middleware from the setup with no declaration
    and the NONE strategy; after any call of that setup every file part,
    whatever field it names, is answered by the limit check with
    LIMIT_UNEXPECTED_FILE for its field, and the store holds an empty
    [filesLeft] that stays empty. *)
Theorem none_rejects_every_file (this : Multer) (h : Heap)
    (req : FastifyRequest) (files : list File) :
  none this = makeBeforeHandler (setup this [] NONE)
  ∧ setup_fileStrategy (setup this [] NONE h).1 = NONE
  ∧ request (setup this [] NONE) req files h = (rejection <$> files, h ++ [∅]).
Proof.
  split; [done|]. split; [by rewrite setup_run|].
  rewrite request_setup_run. unfold initial. cbn [foldl].
  assert (enforceAll (fileFilter this) ∅ req files = (rejection <$> files, ∅)) as ->; [|done].
  induction files as [|g rest IH]; [done|].
  cbn [enforceAll]. unfold enforce at 1. rewrite lookup_empty. cbn [or_zero le_zero].
  change (0 <=? 0) with true. cbn iota. by rewrite IH.
Qed.

(** C7. [any()] builds its middleware from a setup that creates no counters
    and installs the caller's filter itself, with the ARRAY strategy: every
    file part, whatever field it names and however many parts named it
    before, is handed to the caller's filter, and all that happens is what the
    caller's filter does; the store is not touched. *)
Theorem any_has_no_limit_check (this : Multer) (h : Heap)
    (req : FastifyRequest) (files : list File) :
  any this = makeBeforeHandler (any_setup this)
  ∧ setup_fileStrategy (any_setup this h).1 = ARRAY
  ∧ request (any_setup this) req files h
    = (callFileFilter (fileFilter this) req <$> files, h).
Proof.
  split; [done|]. split; [done|].
  unfold request, bind, any_setup, ret, feed. cbn [setup_fileFilter].
  revert h. induction files as [|g rest IH]; intros h; [done|].
  cbn [mapM fmap list_fmap]. unfold bind at 1. unfold bind at 1.
  change (mapM ?f rest h) with (mapM f rest h).
  specialize (IH h). destruct (mapM _ rest h) as [ys h'] eqn:Hm.
  injection IH as -> ->. done.
Qed.

(** ** Invariants of the counters *)

Lemma accept_positive (v : option JsNumber) :
  le_zero (or_zero v) = false → ∃ c, v = Some c ∧ positive_count c.
Proof.
  destruct v as [[z| |]|]; cbn; try done.
  - destruct (Z.eqb_spec z 0) as [->|Hz]; cbn; [done|].
    intros Hle. exists (Int z). split; [done|]. cbn. lia.
  - intros _. by exists Infinity.
Qed.

Lemma initial_nonneg (fs : list Field) : map_Forall (λ _, nonneg) (initial fs).
Proof.
  induction fs as [|f fs IH] using rev_ind; [apply map_Forall_empty|].
  rewrite initial_snoc. apply map_Forall_insert_2; [|done].
  unfold budget. destruct (maxCount f); cbn; [lia|done].
Qed.

Lemma enforce_nonneg (ff : FileFilter) (o : FilesLeft) (req : FastifyRequest) (file : File) :
  map_Forall (λ _, nonneg) o → map_Forall (λ _, nonneg) (enforce ff o req file).2.
Proof.
  intros Ho. unfold enforce.
  destruct (le_zero (or_zero (o !! fieldname file))) eqn:Hle; cbn [snd]; [done|].
  apply accept_positive in Hle as (c & Hc & Hpos). rewrite Hc.
  apply map_Forall_insert_2; [|done].
  destruct c as [z| |]; cbn in *; (done || lia).
Qed.

Lemma enforceAll_nonneg (ff : FileFilter) (req : FastifyRequest) (files : list File)
    (o : FilesLeft) :
  map_Forall (λ _, nonneg) o → map_Forall (λ _, nonneg) (enforceAll ff o req files).2.
Proof.
  revert o. induction files as [|g rest IH]; intros o Ho; [done|].
  cbn [enforceAll]. pose proof (enforce_nonneg ff o req g Ho) as Ho'.
  destruct (enforce ff o req g) as [ev o']. specialize (IH o' Ho').
  by destruct (enforceAll ff o' req rest).
Qed.

(** C10. A call of the wrapped filter either turns the part down, and then
    the store is as it was and the caller's filter is not called, or hands it
    to the caller's filter, and then the counter of the part's field was
    strictly positive and is now one less. Counters are therefore never
    negative: after any call of a setup and any number of the request's file
    parts, every counter of the request's [filesLeft] is a non-negative
    integer or [Infinity]. *)
Theorem rejection_preserves_counters :
  (∀ (ff : FileFilter) (a : nat) (req : FastifyRequest) (file : File) (h : Heap),
      ((wrappedFileFilter ff a req file h).1 = rejection file
       ∧ (wrappedFileFilter ff a req file h).2 = h)
      ∨ ((wrappedFileFilter ff a req file h).1 = callFileFilter ff req file
         ∧ ∃ (o : FilesLeft) (c : JsNumber),
             h !! a = Some o ∧ o !! fieldname file = Some c ∧ positive_count c
             ∧ (wrappedFileFilter ff a req file h).2
               = <[a := <[fieldname file := minus_one (Some c)]> o]> h))
  ∧ (∀ (this : Multer) (fs : list Field) (strategy : Strategy)
       (req : FastifyRequest) (files : list File) (i : nat) (h : Heap),
      ∃ filesLeft : FilesLeft,
        (request (setup this fs strategy) req (take i files) h).2 = h ++ [filesLeft]
        ∧ map_Forall (λ _, nonneg) filesLeft).
Proof.
  split.
  - intros ff a req file h.
    destruct (h !! a) as [o|] eqn:Ha.
    + rewrite (wrappedFileFilter_run _ _ _ _ _ _ Ha). unfold enforce.
      destruct (le_zero (or_zero (o !! fieldname file))) eqn:Hle; cbn [fst snd].
      * left. by rewrite (list_insert_id _ _ _ Ha).
      * right. split; [done|].
        apply accept_positive in Hle as (c & Hc & Hpos).
        exists o, c. by rewrite Hc.
    + left. unfold wrappedFileFilter, bind, getProp. by rewrite Ha.
  - intros this fs strategy req files i h.
    rewrite request_setup_run. cbn [snd]. eexists. split; [done|].
    apply enforceAll_nonneg, initial_nonneg.
Qed.

(** ** Requests in flight together *)

Lemma answers_cons_same (r : nat) (ev : list Event) (out : list (nat * list Event)) :
  answers r ((r, ev) :: out) = ev :: answers r out.
Proof. unfold answers. by rewrite filter_cons_True by done. Qed.

Lemma answers_cons_other (r r' : nat) (ev : list Event) (out : list (nat * list Event)) :
  r' ≠ r → answers r ((r', ev) :: out) = answers r out.
Proof. intros Hne. unfold answers. by rewrite filter_cons_False by done. Qed.

(** The answers to one request in a run on the shared store are those that
    its own counters give to its own parts. *)
Lemma serve_answers (this : Multer) (fs : list Field) (strategy : Strategy)
    (reqs : nat → FastifyRequest) (r base : nat) (schedule : list Step) :
  ∀ (handlers : list SetupResult) (h : Heap) (o : FilesLeft),
    length h = (base + length handlers)%nat →
    (∀ i s, handlers !! i = Some s →
       setup_fileFilter s = wrappedFileFilter (fileFilter this) (base + i)) →
    ((r < length handlers)%nat → h !! (base + r)%nat = Some o) →
    ((length handlers ≤ r)%nat → o = initial fs) →
    answers r (serve (setup this fs strategy) reqs handlers schedule h).1
    = (enforceAll (fileFilter this) o (reqs r) (parts r (length handlers) schedule)).1.
Proof.
  induction schedule as [|[|r' file] rest IH]; intros handlers h o Hlen Hhs Hr Hnew.
  - done.
  - cbn [serve parts]. unfold bind at 1. rewrite setup_run.
    replace (S (length handlers)) with (length (handlers ++
      [{| setup_limits := limits this; setup_preservePath := preservePath this;
          setup_storage := storage this;
          setup_fileFilter := wrappedFileFilter (fileFilter this) (length h);
          setup_fileStrategy := strategy |}])) by (rewrite length_app; cbn; lia).
    apply IH.
    + rewrite !length_app. cbn. lia.
    + intros i s Hi. apply lookup_app_Some in Hi as [Hi|[Hge Hi]]; [by apply Hhs|].
      apply list_lookup_singleton_Some in Hi as [Hi <-]. cbn [setup_fileFilter].
      f_equal. lia.
    + rewrite length_app. cbn [length]. intros Hlt.
      destruct (decide (r < length handlers)%nat) as [Hold|Hge].
      * rewrite lookup_app_l by lia. by apply Hr.
      * rewrite lookup_app_r by lia.
        replace (base + r - length h)%nat with 0%nat by lia.
        cbn. f_equal. symmetry. apply Hnew. lia.
    + rewrite length_app. cbn [length]. intros Hge. apply Hnew. lia.
  - cbn [serve parts]. destruct (handlers !! r') as [s|] eqn:Hs.
    + pose proof (lookup_lt_Some _ _ _ Hs) as Hr'.
      destruct (lookup_lt_is_Some_2 h (base + r')%nat ltac:(lia)) as [o' Ho'].
      unfold bind at 1. rewrite (Hhs _ _ Hs), (wrappedFileFilter_run _ _ _ _ _ _ Ho').
      unfold bind at 1.
      destruct (decide (r' = r)) as [->|Hne].
      * rewrite decide_True by done. specialize (Hr Hr'). simplify_eq.
        cbn [enforceAll]. destruct (enforce (fileFilter this) o (reqs r) file) as [ev o1].
        cbn [fst snd].
        specialize (IH handlers (<[(base + r)%nat := o1]> h) o1).
        destruct (serve _ reqs handlers rest _) as [out h1]. cbn [fst] in *.
        unfold ret. cbn [fst]. rewrite answers_cons_same.
        destruct (enforceAll _ o1 _ _) as [evs final]. cbn [fst] in *. f_equal.
        apply IH.
        -- by rewrite length_insert.
        -- done.
        -- intros _. apply list_lookup_insert_eq. lia.
        -- lia.
      * rewrite decide_False by tauto.
        specialize (IH handlers (<[(base + r')%nat := (enforce (fileFilter this) o' (reqs r') file).2]> h) o).
        destruct (serve _ reqs handlers rest _) as [out h1]. cbn [fst] in *.
        unfold ret. cbn [fst]. rewrite answers_cons_other by done.
        apply IH.
        -- by rewrite length_insert.
        -- done.
        -- intros Hlt. rewrite list_lookup_insert_ne by lia. by apply Hr.
        -- done.
    + apply lookup_ge_None in Hs.
      rewrite decide_False by lia. by apply IH.
Qed.

(** C9. Every call of the setup closure makes its own counters: in a run of
    one middleware over any interleaving of setup calls and file parts of any
    number of requests, the answers given to a request are the answers that
    the same setup gives when the request's own file parts are handed to it
    alone, on any store. *)
Theorem requests_independent (this : Multer) (fs : list Field) (strategy : Strategy)
    (reqs : nat → FastifyRequest) (schedule : list Step) (h h' : Heap) (r : nat) :
  answers r (serve (setup this fs strategy) reqs [] schedule h).1
  = (request (setup this fs strategy) (reqs r) (parts r 0 schedule) h').1.
Proof.
  rewrite request_setup_run. cbn [fst].
  apply (serve_answers this fs strategy reqs r (length h) schedule [] h (initial fs)).
  - cbn. lia.
  - intros i s Hi. done.
  - cbn. lia.
  - done.
Qed.

(** ** The other entry points and the edges of the limit check *)

(** X1. After a setup call for any declarations, a file part whose field
    name was last declared without [maxCount] is handed to the caller's
    filter, however many parts named that field before. *)
Theorem unbounded_field_always_passes (this : Multer) (fs : list Field)
    (strategy : Strategy) (h : Heap) (req : FastifyRequest) (files : list File)
    (i : nat) (file : File) (f : Field) :
  files !! i = Some file →
  declaration fs (fieldname file) = Some f →
  maxCount f = None →
  (request (setup this fs strategy) req files h).1 !! i
  = Some (callFileFilter (fileFilter this) req file).
Proof.
  intros Hi Hd Hmax. rewrite request_setup_run. cbn [fst].
  rewrite (enforceAll_lookup _ _ _ _ _ _ Hi), initial_lookup, Hd.
  cbn. unfold budget. by rewrite Hmax.
Qed.

(** X2. [array(name, maxCount)] builds its middleware from the setup with
    the one declaration [{name, maxCount}] and the ARRAY strategy. After a
    call of that setup a part for another field is turned down; a part for
    [name] goes to the caller's filter always when [maxCount] is left out,
    and otherwise exactly when fewer than [maxCount] earlier parts named
    [name]. *)
Theorem array_limits (this : Multer) (n : string) (max : option N) (h : Heap)
    (req : FastifyRequest) (files : list File) (i : nat) (file : File) :
  files !! i = Some file →
  array this n max
  = makeBeforeHandler (setup this [{| name := n; maxCount := max |}] ARRAY)
  ∧ setup_fileStrategy (setup this [{| name := n; maxCount := max |}] ARRAY h).1 = ARRAY
  ∧ (fieldname file ≠ n →
     (request (setup this [{| name := n; maxCount := max |}] ARRAY) req files h).1 !! i
     = Some (rejection file))
  ∧ (fieldname file = n → max = None →
     (request (setup this [{| name := n; maxCount := max |}] ARRAY) req files h).1 !! i
     = Some (callFileFilter (fileFilter this) req file))
  ∧ (∀ k, fieldname file = n → max = Some k →
     (request (setup this [{| name := n; maxCount := max |}] ARRAY) req files h).1 !! i
     = Some (if decide (earlier n files i < N.to_nat k)%nat
             then callFileFilter (fileFilter this) req file
             else rejection file)).
Proof.
  intros Hi. split; [done|]. split; [by rewrite setup_run|].
  rewrite request_setup_run. cbn [fst].
  rewrite (enforceAll_lookup _ _ _ _ _ _ Hi).
  unfold initial. cbn [foldl name]. split; [|split].
  - intros Hne. by rewrite lookup_insert_ne, lookup_empty.
  - intros Hn Hmax. subst n max. by rewrite lookup_insert_eq.
  - intros k Hn Hmax. subst n max. rewrite lookup_insert_eq. cbn. f_equal.
    case_decide; destruct (Z.ltb_spec (Z.of_nat (earlier (fieldname file) files i))
      (Z.of_N k)); (done || lia).
Qed.

(** X3. The factory returns an instance exactly for [undefined] and for
    objects, and for an object it is the instance built from that object;
    [null], although its [typeof] is ["object"], makes it throw. *)
Theorem multer_returns_instance (v : JsValue) :
  ((∃ m, multer v = inr m) ↔ v = js_undefined ∨ ∃ o, v = js_object o)
  ∧ (∀ o, multer (js_object o) = inr (new_Multer o))
  ∧ typeof js_null = "object"
  ∧ multer js_null = inl (TypeError "Expected object for argument options").
Proof.
  split; [|done]. split.
  - intros [m Hm]. destruct v; try discriminate Hm; [by left|right; by eexists].
  - intros [->|[o ->]]; by eexists.
Qed.

Lemma accept_positive_iff (v : option JsNumber) :
  le_zero (or_zero v) = false ↔ ∃ c, v = Some c ∧ positive_count c.
Proof.
  split; [apply accept_positive|].
  intros ([z| |] & -> & Hpos); cbn in *; [|done..].
  destruct (Z.eqb_spec z 0) as [->|Hz]; [lia|]. cbn. lia.
Qed.

(** X4. A call of the wrapped filter hands the part to the caller's filter
    exactly when its [filesLeft] object has an entry for the part's field
    that is a strictly positive integer or [Infinity]: a part is never
    turned down while its field has budget left, and a missing entry, zero,
    a negative number and [NaN] all turn it down. *)
Theorem passes_iff_budget_left (ff : FileFilter) (a : nat) (req : FastifyRequest)
    (file : File) (h : Heap) :
  passed (wrappedFileFilter ff a req file h).1 = true
  ↔ ∃ (o : FilesLeft) (c : JsNumber),
      h !! a = Some o ∧ o !! fieldname file = Some c ∧ positive_count c.
Proof.
  destruct (h !! a) as [o|] eqn:Ha.
  - rewrite (wrappedFileFilter_run _ _ _ _ _ _ Ha). unfold enforce.
    destruct (le_zero (or_zero (o !! fieldname file))) eqn:Hle; cbn [fst passed callFileFilter rejection].
    + split; [done|]. intros (o' & c & Ho' & Hc & Hpos). simplify_eq.
      assert (le_zero (or_zero (o' !! fieldname file)) = false) as Hf
        by (apply accept_positive_iff; eauto).
      congruence.
    + split; [|done]. intros _.
      apply accept_positive in Hle as (c & Hc & Hpos). eauto.
  - unfold wrappedFileFilter, bind, getProp. rewrite Ha. cbn.
    split; [done|]. by intros (o & c & ? & _).
Qed.

(** X5. A call of the wrapped filter neither creates nor removes an object
    of the store, and every object other than its own [filesLeft] is left as
    it was. *)
Theorem wrapped_filter_frame (ff : FileFilter) (a : nat) (req : FastifyRequest)
    (file : File) (h : Heap) :
  length (wrappedFileFilter ff a req file h).2 = length h
  ∧ ∀ b, b ≠ a → (wrappedFileFilter ff a req file h).2 !! b = h !! b.
Proof.
  destruct (h !! a) as [o|] eqn:Ha.
  - rewrite (wrappedFileFilter_run _ _ _ _ _ _ Ha). cbn [snd].
    split; [by rewrite length_insert|].
    intros b Hb. by rewrite list_lookup_insert_ne.
  - unfold wrappedFileFilter, bind, getProp. rewrite Ha. by cbn.
Qed.

Lemma earlier_mono (n : string) (files : list File) (i j : nat) :
  (j ≤ i)%nat → (earlier n files j ≤ earlier n files i)%nat.
Proof.
  intros Hji. unfold earlier.
  replace i with (j + (i - j))%nat by lia.
  rewrite <- take_take_drop, filter_app, length_app. lia.
Qed.

Lemma callFileFilter_not_rejection (ff : FileFilter) (req : FastifyRequest) (file g : File) :
  callFileFilter ff req file ≠ rejection g.
Proof. done. Qed.

(** X6. Within a request a rejection is final for its field: once a part
    for a field has been turned down by the limit check, every later part
    for the same field is turned down too. *)
Theorem rejection_is_final (this : Multer) (fs : list Field) (strategy : Strategy)
    (h : Heap) (req : FastifyRequest) (files : list File) (i j : nat)
    (first later : File) :
  (j < i)%nat →
  files !! j = Some first → files !! i = Some later →
  fieldname first = fieldname later →
  (request (setup this fs strategy) req files h).1 !! j = Some (rejection first) →
  (request (setup this fs strategy) req files h).1 !! i = Some (rejection later).
Proof.
  intros Hji Hj Hi Hsame. rewrite request_setup_run. cbn [fst].
  rewrite (enforceAll_lookup _ _ _ _ _ _ Hj), (enforceAll_lookup _ _ _ _ _ _ Hi).
  rewrite Hsame.
  pose proof (earlier_mono (fieldname later) files i j ltac:(lia)) as Hmono.
  unfold verdict.
  destruct (initial fs !! fieldname later) as [[c| |]|]; [|by intros [=]|done..].
  destruct (Z.ltb_spec (Z.of_nat (earlier (fieldname later) files j)) c);
    [by intros [=]|].
  intros _. by destruct (Z.ltb_spec (Z.of_nat (earlier (fieldname later) files i)) c);
    [lia|].
Qed.

Lemma enforce_same_counter (ff : FileFilter) (o o' : FilesLeft) (req : FastifyRequest)
    (file : File) :
  o !! fieldname file = o' !! fieldname file →
  (enforce ff o req file).1 = (enforce ff o' req file).1
  ∧ (enforce ff o req file).2 !! fieldname file
    = (enforce ff o' req file).2 !! fieldname file.
Proof.
  intros Heq. unfold enforce. rewrite Heq.
  destruct (le_zero (or_zero (o' !! fieldname file))); cbn [fst snd]; [done|].
  by rewrite !lookup_insert_eq.
Qed.

Lemma answersFor_cons_same (n : string) (g : File) (rest : list File)
    (ev : list Event) (evs : list (list Event)) :
  fieldname g = n → answersFor n (g :: rest) (ev :: evs) = ev :: answersFor n rest evs.
Proof. intros Hn. unfold answersFor. cbn [zip zip_with]. by rewrite filter_cons_True by done. Qed.

Lemma answersFor_cons_other (n : string) (g : File) (rest : list File)
    (ev : list Event) (evs : list (list Event)) :
  fieldname g ≠ n → answersFor n (g :: rest) (ev :: evs) = answersFor n rest evs.
Proof. intros Hn. unfold answersFor. cbn [zip zip_with]. by rewrite filter_cons_False by done. Qed.

(** The answers to the parts of one field come from the counter of that
    field and from those parts alone. *)
Lemma enforceAll_answersFor (ff : FileFilter) (req : FastifyRequest) (n : string)
    (files : list File) :
  ∀ o o' : FilesLeft,
    o !! n = o' !! n →
    answersFor n files (enforceAll ff o req files).1
    = (enforceAll ff o' req (filter (λ f, fieldname f = n) files)).1.
Proof.
  induction files as [|g rest IH]; intros o o' Heq; [done|].
  cbn [enforceAll].
  destruct (enforce ff o req g) as [ev o1] eqn:Henf.
  destruct (enforceAll ff o1 req rest) as [evs final] eqn:Hall. cbn [fst].
  destruct (decide (fieldname g = n)) as [Hn|Hn].
  - rewrite filter_cons_True by done. cbn [enforceAll].
    rewrite <- Hn in Heq.
    pose proof (enforce_same_counter ff o o' req g Heq) as [Hev Ho].
    rewrite Henf in Hev, Ho. cbn [fst snd] in Hev, Ho.
    destruct (enforce ff o' req g) as [ev' o1']. cbn [fst snd] in Hev, Ho. subst ev'.
    rewrite Hn in Ho. specialize (IH o1 o1' Ho). rewrite Hall in IH. cbn [fst] in IH.
    destruct (enforceAll ff o1' req _) as [evs' final']. cbn [fst] in *.
    rewrite answersFor_cons_same by done. by rewrite IH.
  - rewrite filter_cons_False by done.
    rewrite answersFor_cons_other by done.
    pose proof (enforce_other ff o req g n Hn) as Ho.
    rewrite Henf in Ho. cbn [snd] in Ho.
    specialize (IH o1 o' ltac:(congruence)). by rewrite Hall in IH.
Qed.

(** X7. Fields do not compete for budget: within a request the answers to
    the parts of one field are the answers that the same setup gives when
    only the parts of that field are sent, in the same order; parts for other
    fields, passed on or turned down, change nothing for it. *)
Theorem field_answers_independent (this : Multer) (fs : list Field)
    (strategy : Strategy) (h h' : Heap) (req : FastifyRequest) (files : list File)
    (n : string) :
  answersFor n files (request (setup this fs strategy) req files h).1
  = (request (setup this fs strategy) req (filter (λ f, fieldname f = n) files) h').1.
Proof.
  rewrite !request_setup_run. cbn [fst]. by apply enforceAll_answersFor.
Qed.

(** ** How many parts go through *)

Lemma passedCount_cons (ev : list Event) (out : list (list Event)) :
  passedCount (ev :: out)
  = ((if passed ev then 1 else 0) + passedCount out)%nat.
Proof.
  unfold passedCount. destruct (passed ev) eqn:Hp.
  - by rewrite filter_cons_True by done.
  - rewrite filter_cons_False; [done|]. by rewrite Hp.
Qed.

Lemma occurrences_cons (n : string) (g : File) (rest : list File) :
  occurrences n (g :: rest)
  = ((if decide (fieldname g = n) then 1 else 0) + occurrences n rest)%nat.
Proof.
  unfold occurrences. case_decide.
  - by rewrite filter_cons_True by done.
  - by rewrite filter_cons_False by done.
Qed.

(** What one call does to an integer counter that is not negative. *)
Lemma enforce_counter (ff : FileFilter) (o : FilesLeft) (req : FastifyRequest)
    (file : File) (c : Z) :
  o !! fieldname file = Some (Int c) → 0 ≤ c →
  (c = 0 ∧ enforce ff o req file = (rejection file, o))
  ∨ (0 < c ∧ enforce ff o req file
             = (callFileFilter ff req file, <[fieldname file := Int (c - 1)]> o)).
Proof.
  intros Hc Hc0. unfold enforce. rewrite Hc. cbn [or_zero truthy minus_one].
  destruct (Z.eqb_spec c 0) as [->|Hne]; cbn [negb le_zero].
  - left. done.
  - right. split; [lia|]. by destruct (Z.leb_spec c 0); [lia|].
Qed.

Lemma enforceAll_count (ff : FileFilter) (req : FastifyRequest) (n : string)
    (files : list File) :
  ∀ (o : FilesLeft) (c : Z),
    o !! n = Some (Int c) → 0 ≤ c →
    passedCount (answersFor n files (enforceAll ff o req files).1)
    = (Z.to_nat c `min` occurrences n files)%nat
    ∧ (enforceAll ff o req files).2 !! n
      = Some (Int (c - Z.of_nat (Z.to_nat c `min` occurrences n files))).
Proof.
  induction files as [|g rest IH]; intros o c Hc Hc0.
  - cbn. rewrite Hc. split; [unfold occurrences; cbn; lia|].
    unfold occurrences. cbn. do 2 f_equal; lia.
  - cbn [enforceAll]. rewrite occurrences_cons.
    destruct (decide (fieldname g = n)) as [Hn|Hn].
    + subst n. destruct (enforce_counter ff o req g c Hc Hc0) as [[-> ->]|[Hpos ->]].
      * specialize (IH o 0 Hc ltac:(lia)) as [IH1 IH2].
        destruct (enforceAll ff o req rest) as [evs final]. cbn [fst snd] in *.
        rewrite answersFor_cons_same, passedCount_cons by done. cbn [passed rejection].
        rewrite IH1, IH2. split; [lia|]. do 2 f_equal; lia.
      * specialize (IH (<[fieldname g := Int (c - 1)]> o) (c - 1)
                      ltac:(by rewrite lookup_insert_eq) ltac:(lia)) as [IH1 IH2].
        destruct (enforceAll ff _ req rest) as [evs final]. cbn [fst snd] in *.
        rewrite answersFor_cons_same, passedCount_cons by done.
        cbn [passed callFileFilter].
        rewrite IH1, IH2. split; [lia|]. do 2 f_equal; lia.
    + pose proof (enforce_other ff o req g n Hn) as Ho.
      destruct (enforce ff o req g) as [ev o1]. cbn [snd] in Ho.
      specialize (IH o1 c ltac:(congruence) Hc0) as [IH1 IH2].
      destruct (enforceAll ff o1 req rest) as [evs final]. cbn [fst snd] in *.
      rewrite answersFor_cons_other by done. by rewrite IH1, IH2.
Qed.

Lemma initial_exact (fs : list Field) :
  (∀ f k, f ∈ fs → maxCount f = Some k → (k ≤ 2 ^ 53)%N) →
  map_Forall (λ _, exact) (initial fs).
Proof.
  induction fs as [|f fs IH] using rev_ind; intros Hall; [apply map_Forall_empty|].
  rewrite initial_snoc. apply map_Forall_insert_2.
  - unfold budget. destruct (maxCount f) as [k|] eqn:Hk; [|done].
    assert (k ≤ 2 ^ 53)%N by (apply (Hall f); [apply elem_of_app; right; by left|done]).
    cbn. lia.
  - apply IH. intros g k Hg. apply Hall, elem_of_app. by left.
Qed.

Lemma enforce_exact (ff : FileFilter) (o : FilesLeft) (req : FastifyRequest) (file : File) :
  map_Forall (λ _, exact) o → map_Forall (λ _, exact) (enforce ff o req file).2.
Proof.
  intros Ho. unfold enforce.
  destruct (le_zero (or_zero (o !! fieldname file))) eqn:Hle; cbn [snd]; [done|].
  apply accept_positive in Hle as (c & Hc & Hpos). rewrite Hc.
  pose proof (Ho _ _ Hc) as Hex.
  apply map_Forall_insert_2; [|done].
  destruct c as [z| |]; cbn in *; (done || lia).
Qed.

(** With declarations up to 2^53 the counters of a request stay between 0
    and the declared value, in the range where the source's [-= 1] is
    exact. *)
Lemma counters_in_exact_range (this : Multer) (fs : list Field) (strategy : Strategy)
    (h : Heap) (req : FastifyRequest) (files : list File) :
  (∀ f k, f ∈ fs → maxCount f = Some k → (k ≤ 2 ^ 53)%N) →
  ∃ filesLeft : FilesLeft,
    (request (setup this fs strategy) req files h).2 = h ++ [filesLeft]
    ∧ map_Forall (λ _, exact) filesLeft.
Proof.
  intros Hall. rewrite request_setup_run. cbn [snd]. eexists. split; [done|].
  pose proof (initial_exact fs Hall) as Hinit.
  generalize dependent (initial fs). induction files as [|g rest IH]; intros o Ho; [done|].
  cbn [enforceAll]. pose proof (enforce_exact (fileFilter this) o req g Ho) as Ho1.
  destruct (enforce (fileFilter this) o req g) as [ev o1]. specialize (IH o1 Ho1).
  by destruct (enforceAll (fileFilter this) o1 req rest).
Qed.

(** X8. When the last declaration of a field name has [maxCount = k] with
    [k] at most 2^53, so that every decrement is exact, the number of the
    request's parts for that field that are handed to the caller's filter is
    the smaller of [k] and the number of parts naming the field, so never
    more than [k]; and the counter left for the field is [k] less that
    number. *)
Theorem passed_per_field (this : Multer) (fs : list Field) (strategy : Strategy)
    (h : Heap) (req : FastifyRequest) (files : list File) (n : string)
    (f : Field) (k : N) :
  declaration fs n = Some f → maxCount f = Some k → (k ≤ 2 ^ 53)%N →
  passedCount (answersFor n files (request (setup this fs strategy) req files h).1)
  = (N.to_nat k `min` occurrences n files)%nat
  ∧ (request (setup this fs strategy) req files h).2 !! length h ≫= (.!! n)
    = Some (Int (Z.of_N k - Z.of_nat (N.to_nat k `min` occurrences n files))).
Proof.
  intros Hd Hk _. rewrite request_setup_run. cbn [fst snd].
  rewrite lookup_app_r, Nat.sub_diag by lia. cbn [lookup list_lookup mbind option_bind].
  assert (initial fs !! n = Some (Int (Z.of_N k))) as Hinit.
  { rewrite initial_lookup, Hd. cbn. unfold budget. by rewrite Hk. }
  destruct (enforceAll_count (fileFilter this) req n files (initial fs) (Z.of_N k)
              Hinit ltac:(lia)) as [H1 H2].
  rewrite H1, H2. replace (Z.to_nat (Z.of_N k)) with (N.to_nat k) by lia. done.
Qed.

(** A call keeps the set of keys of its object. *)
Lemma enforce_keys (ff : FileFilter) (o : FilesLeft) (req : FastifyRequest)
    (file : File) (n : string) :
  is_Some ((enforce ff o req file).2 !! n) ↔ is_Some (o !! n).
Proof.
  unfold enforce.
  destruct (le_zero (or_zero (o !! fieldname file))) eqn:Hle; cbn [snd]; [done|].
  apply accept_positive in Hle as (c & Hc & _).
  rewrite lookup_insert. case_decide; [|done].
  subst n. rewrite Hc. split; eauto.
Qed.

Lemma enforceAll_keys (ff : FileFilter) (req : FastifyRequest) (files : list File)
    (n : string) :
  ∀ o : FilesLeft, is_Some ((enforceAll ff o req files).2 !! n) ↔ is_Some (o !! n).
Proof.
  induction files as [|g rest IH]; intros o; [done|].
  cbn [enforceAll]. pose proof (enforce_keys ff o req g n) as Hk.
  destruct (enforce ff o req g) as [ev o1]. specialize (IH o1).
  destruct (enforceAll ff o1 req rest). cbn [snd] in *. by rewrite IH.
Qed.

Lemma initial_keys (fs : list Field) (n : string) :
  is_Some (initial fs !! n) ↔ ∃ f, f ∈ fs ∧ name f = n.
Proof.
  rewrite initial_lookup. split.
  - intros [c Hc]. destruct (declaration fs n) as [f|] eqn:Hd; [|done].
    exists f. by apply declaration_elem_of.
  - intros (f & Hin & Hn). destruct (declaration fs n) as [g|] eqn:Hd; [by eexists|].
    exfalso. by eapply declaration_None.
Qed.

(** X9. The keys of a request's [filesLeft] are the declared field names
    and stay so: whatever parts the request sends, no entry is ever made for
    an undeclared field name and no entry is removed. *)
Theorem counters_keep_declared_keys (this : Multer) (fs : list Field)
    (strategy : Strategy) (h : Heap) (req : FastifyRequest) (files : list File) :
  ∃ filesLeft : FilesLeft,
    (request (setup this fs strategy) req files h).2 = h ++ [filesLeft]
    ∧ ∀ n, is_Some (filesLeft !! n) ↔ ∃ f, f ∈ fs ∧ name f = n.
Proof.
  rewrite request_setup_run. cbn [snd]. eexists. split; [done|].
  intros n. by rewrite enforceAll_keys, initial_keys.
Qed.

Lemma remaining_insert_fresh (o : FilesLeft) (i : string) (c : JsNumber) :
  o !! i = None → remaining (<[i := c]> o) = counterValue c + remaining o.
Proof.
  intros Hi. unfold remaining. rewrite map_fold_insert_L; [done| |done].
  intros. lia.
Qed.

Lemma remaining_insert (o : FilesLeft) (i : string) (c c' : JsNumber) :
  o !! i = Some c →
  remaining (<[i := c']> o) = counterValue c' - counterValue c + remaining o.
Proof.
  intros Hi. rewrite <- insert_delete_eq.
  rewrite remaining_insert_fresh by apply lookup_delete_eq.
  unfold remaining at 2. rewrite (map_fold_delete_L _ _ i c o); [|intros; lia|done].
  fold (remaining (delete i o)). lia.
Qed.

Lemma remaining_bounded_nonneg (o : FilesLeft) :
  map_Forall (λ _, bounded) o → 0 ≤ remaining o.
Proof.
  induction o as [|i c o Hi IH] using map_ind.
  - intros _. unfold remaining. by rewrite map_fold_empty.
  - intros Hall. rewrite remaining_insert_fresh by done.
    apply map_Forall_insert in Hall as [Hc Ho]; [|done].
    specialize (IH Ho). destruct c; cbn in *; (done || lia).
Qed.

(** A call that hands its part on takes one from the sum of the counters. *)
Lemma enforce_total (ff : FileFilter) (o : FilesLeft) (req : FastifyRequest) (file : File) :
  map_Forall (λ _, bounded) o →
  map_Forall (λ _, bounded) (enforce ff o req file).2
  ∧ (if passed (enforce ff o req file).1 then 1 else 0) + remaining (enforce ff o req file).2
    = remaining o.
Proof.
  intros Ho. unfold enforce.
  destruct (le_zero (or_zero (o !! fieldname file))) eqn:Hle; cbn [fst snd passed rejection callFileFilter].
  - split; [done|lia].
  - apply accept_positive in Hle as (c & Hc & Hpos). rewrite Hc.
    pose proof (Ho _ _ Hc) as Hb. destruct c as [z| |]; cbn in Hb, Hpos; try done.
    cbn [minus_one]. split.
    + apply map_Forall_insert_2; [cbn; lia|done].
    + rewrite (remaining_insert _ _ _ _ Hc). cbn. lia.
Qed.

Lemma enforceAll_total (ff : FileFilter) (req : FastifyRequest) (files : list File) :
  ∀ o : FilesLeft,
    map_Forall (λ _, bounded) o →
    map_Forall (λ _, bounded) (enforceAll ff o req files).2
    ∧ Z.of_nat (passedCount (enforceAll ff o req files).1)
      + remaining (enforceAll ff o req files).2
      = remaining o.
Proof.
  induction files as [|g rest IH]; intros o Ho.
  - cbn. split; [done|]. unfold passedCount. cbn. lia.
  - cbn [enforceAll]. destruct (enforce_total ff o req g Ho) as [Ho1 Hstep].
    destruct (enforce ff o req g) as [ev o1]. cbn [fst snd] in *.
    destruct (IH o1 Ho1) as [Hfinal Hsum].
    destruct (enforceAll ff o1 req rest) as [evs final]. cbn [fst snd] in *.
    split; [done|]. rewrite passedCount_cons. destruct (passed ev); lia.
Qed.

Lemma declaredTotal_snoc (fs : list Field) (f : Field) :
  declaredTotal (fs ++ [f]) = declaredTotal fs + Z.of_N (default 0%N (maxCount f)).
Proof.
  unfold declaredTotal. induction fs as [|g fs IH]; cbn; [lia|].
  cbn in IH. rewrite IH. lia.
Qed.

Lemma initial_total (fs : list Field) :
  (∀ f, f ∈ fs → is_Some (maxCount f)) →
  map_Forall (λ _, bounded) (initial fs) ∧ remaining (initial fs) ≤ declaredTotal fs.
Proof.
  induction fs as [|f fs IH] using rev_ind; intros Hall.
  - split; [apply map_Forall_empty|].
    unfold remaining, initial, declaredTotal. cbn [foldl foldr].
    by rewrite map_fold_empty.
  - destruct IH as [Hb Hle]; [intros g Hg; apply Hall, elem_of_app; by left|].
    destruct (Hall f) as [k Hk]; [apply elem_of_app; right; by left|].
    rewrite initial_snoc, declaredTotal_snoc. unfold budget. rewrite Hk. cbn [default].
    split; [apply map_Forall_insert_2; [cbn; lia|done]|].
    destruct (initial fs !! name f) as [c|] eqn:Hc.
    + rewrite (remaining_insert _ _ _ _ Hc). pose proof (Hb _ _ Hc) as Hbc.
      destruct c; cbn in *; (done || lia).
    + rewrite remaining_insert_fresh by done. cbn. lia.
Qed.

(** X10. When every declaration carries a [maxCount], the number of parts
    of a request that are handed to the caller's filter is at most the sum of
    the declared [maxCount]s, whatever the request sends. *)
Theorem total_passed_bounded (this : Multer) (fs : list Field) (strategy : Strategy)
    (h : Heap) (req : FastifyRequest) (files : list File) :
  (∀ f, f ∈ fs → is_Some (maxCount f)) →
  Z.of_nat (passedCount (request (setup this fs strategy) req files h).1)
  ≤ declaredTotal fs.
Proof.
  intros Hall. rewrite request_setup_run. cbn [fst].
  destruct (initial_total fs Hall) as [Hb Hle].
  destruct (enforceAll_total (fileFilter this) req files (initial fs) Hb) as [Hfinal Hsum].
  pose proof (remaining_bounded_nonneg _ Hfinal). lia.
Qed.

(** When one field only has a counter, only its parts go through. *)
Lemma enforceAll_only_field (ff : FileFilter) (req : FastifyRequest) (n : string)
    (files : list File) :
  ∀ o : FilesLeft,
    (∀ m, m ≠ n → o !! m = None) →
    passedCount (enforceAll ff o req files).1
    = passedCount (answersFor n files (enforceAll ff o req files).1).
Proof.
  induction files as [|g rest IH]; intros o Ho; [done|].
  cbn [enforceAll].
  destruct (decide (fieldname g = n)) as [Hn|Hn].
  - assert (∀ m, m ≠ n → (enforce ff o req g).2 !! m = None) as Ho1.
    { intros m Hm. rewrite enforce_other by congruence. by apply Ho. }
    destruct (enforce ff o req g) as [ev o1]. cbn [snd] in Ho1.
    specialize (IH o1 Ho1).
    destruct (enforceAll ff o1 req rest) as [evs final]. cbn [fst] in *.
    rewrite answersFor_cons_same by done. rewrite !passedCount_cons. by rewrite IH.
  - assert (enforce ff o req g = (rejection g, o)) as ->
      by (unfold enforce; by rewrite (Ho _ Hn)).
    specialize (IH o Ho).
    destruct (enforceAll ff o req rest) as [evs final]. cbn [fst] in *.
    rewrite answersFor_cons_other by done. rewrite passedCount_cons.
    cbn [passed rejection]. by rewrite IH.
Qed.

(** X11. With one declaration [{name, maxCount: k}], as [single(name)]
    makes with [k = 1] and [array(name, k)] with the [k] it is given, the
    number of parts of a request that are handed to the caller's filter is
    the smaller of [k] and the number of parts naming [name]: for
    [single], one when the request has a part for [name] and none
    otherwise. *)
Theorem one_field_passes_min (this : Multer) (n : string) (k : N)
    (strategy : Strategy) (h : Heap) (req : FastifyRequest) (files : list File) :
  single this n
  = makeBeforeHandler (setup this [{| name := n; maxCount := Some 1%N |}] VALUE)
  ∧ array this n (Some k)
    = makeBeforeHandler (setup this [{| name := n; maxCount := Some k |}] ARRAY)
  ∧ passedCount
      (request (setup this [{| name := n; maxCount := Some k |}] strategy) req files h).1
    = (N.to_nat k `min` occurrences n files)%nat.
Proof.
  split; [done|]. split; [done|].
  rewrite request_setup_run. cbn [fst].
  unfold initial. cbn [foldl name budget maxCount].
  rewrite (enforceAll_only_field _ _ n).
  - destruct (enforceAll_count (fileFilter this) req n files
                (<[n := Int (Z.of_N k)]> ∅) (Z.of_N k)) as [Hcount _];
      [apply lookup_insert_eq|lia|].
    rewrite Hcount. lia.
  - intros m Hm. by rewrite lookup_insert_ne, lookup_empty.
Qed.

(** ** The store under several requests *)

Lemma serve_store (this : Multer) (fs : list Field) (strategy : Strategy)
    (reqs : nat → FastifyRequest) (base : nat) (schedule : list Step) :
  ∀ (handlers : list SetupResult) (h : Heap),
    length h = (base + length handlers)%nat →
    (∀ i s, handlers !! i = Some s →
       setup_fileFilter s = wrappedFileFilter (fileFilter this) (base + i)) →
    length (serve (setup this fs strategy) reqs handlers schedule h).2
    = (length h + setups schedule)%nat
    ∧ (∀ a, (a < base)%nat →
         (serve (setup this fs strategy) reqs handlers schedule h).2 !! a = h !! a)
    ∧ (∀ r o, (r < length handlers)%nat → h !! (base + r)%nat = Some o →
         (serve (setup this fs strategy) reqs handlers schedule h).2 !! (base + r)%nat
         = Some (enforceAll (fileFilter this) o (reqs r)
                   (parts r (length handlers) schedule)).2)
    ∧ (∀ r, (length handlers ≤ r)%nat → (r < length handlers + setups schedule)%nat →
         (serve (setup this fs strategy) reqs handlers schedule h).2 !! (base + r)%nat
         = Some (enforceAll (fileFilter this) (initial fs) (reqs r)
                   (parts r (length handlers) schedule)).2).
Proof.
  induction schedule as [|[|r' file] rest IH]; intros handlers h Hlen Hhs.
  - cbn. split; [lia|]. split; [done|]. split; [done|]. intros r ? ?. lia.
  - cbn [serve parts setups]. unfold bind at 1 2 3 4. rewrite setup_run.
    set (s := {| setup_limits := limits this; setup_preservePath := preservePath this;
                 setup_storage := storage this;
                 setup_fileFilter := wrappedFileFilter (fileFilter this) (length h);
                 setup_fileStrategy := strategy |}).
    assert (length (handlers ++ [s]) = S (length handlers)) as Hlen'
      by (rewrite length_app; cbn; lia).
    destruct (IH (handlers ++ [s]) (h ++ [initial fs])) as (H1 & H2 & H3 & H4).
    { rewrite !length_app. cbn. lia. }
    { intros i s' Hi. apply lookup_app_Some in Hi as [Hi|[Hge Hi]]; [by apply Hhs|].
      apply list_lookup_singleton_Some in Hi as [Hi <-]. unfold s.
      cbn [setup_fileFilter]. f_equal. lia. }
    rewrite Hlen' in H3, H4. rewrite length_app in H1. cbn [length] in H1.
    split; [lia|]. split; [|split].
    + intros a Ha. rewrite H2 by done. apply lookup_app_l. lia.
    + intros r o Hr Ho. apply H3; [lia|]. rewrite lookup_app_l by lia. done.
    + intros r Hge Hlt. destruct (decide (r = length handlers)) as [->|Hne].
      * apply H3; [lia|]. rewrite lookup_app_r by lia.
        by replace (base + length handlers - length h)%nat with 0%nat by lia.
      * apply H4; lia.
  - cbn [parts setups]. destruct (handlers !! r') as [s|] eqn:Hs.
    + pose proof (lookup_lt_Some _ _ _ Hs) as Hr'.
      destruct (lookup_lt_is_Some_2 h (base + r')%nat ltac:(lia)) as [o' Ho'].
      set (h1 := <[(base + r')%nat := (enforce (fileFilter this) o' (reqs r') file).2]> h).
      assert ((serve (setup this fs strategy) reqs handlers (FilePart r' file :: rest) h).2
              = (serve (setup this fs strategy) reqs handlers rest h1).2) as ->.
      { cbn [serve]. rewrite Hs. unfold bind at 1.
        rewrite (Hhs _ _ Hs), (wrappedFileFilter_run _ _ _ _ _ _ Ho').
        unfold bind at 1. fold h1. by destruct (serve _ reqs handlers rest h1). }
      destruct (IH handlers h1) as (H1 & H2 & H3 & H4);
        [by unfold h1; rewrite length_insert|done|].
      unfold h1 in H1. rewrite length_insert in H1.
      split; [done|]. split; [|split].
      * intros a Ha. rewrite H2 by done. unfold h1.
        by rewrite list_lookup_insert_ne by lia.
      * intros r o Hr Ho. destruct (decide (r' = r)) as [->|Hne].
        -- rewrite decide_True by done.
           assert (o' = o) as Heq by congruence. subst o'. cbn [enforceAll].
           rewrite (H3 r (enforce (fileFilter this) o (reqs r) file).2 Hr)
             by (unfold h1; apply list_lookup_insert_eq; lia).
           destruct (enforce (fileFilter this) o (reqs r) file) as [ev o1]. cbn [snd].
           by destruct (enforceAll _ o1 _ _).
        -- rewrite decide_False by tauto. apply H3; [done|].
           unfold h1. by rewrite list_lookup_insert_ne by lia.
      * intros r Hge Hlt. rewrite decide_False by lia. by apply H4.
    + assert ((serve (setup this fs strategy) reqs handlers (FilePart r' file :: rest) h).2
              = (serve (setup this fs strategy) reqs handlers rest h).2) as ->
        by (cbn [serve]; by rewrite Hs).
      apply lookup_ge_None in Hs.
      destruct (IH handlers h Hlen Hhs) as (H1 & H2 & H3 & H4).
      split; [done|]. split; [done|]. split.
      * intros r o Hr Ho. rewrite decide_False by lia. by apply H3.
      * intros r Hge Hlt. rewrite decide_False by lia. by apply H4.
Qed.

(** X12. In a run of one middleware over any interleaving of setup calls
    and file parts, the store grows by one [filesLeft] per setup call, the
    objects that were there before are left as they were, and the object of
    each request ends with the counters that it has when the request's own
    parts are handed to the setup alone. *)
Theorem serve_store_isolated (this : Multer) (fs : list Field) (strategy : Strategy)
    (reqs : nat → FastifyRequest) (schedule : list Step) (h h' : Heap) :
  length (serve (setup this fs strategy) reqs [] schedule h).2
  = (length h + setups schedule)%nat
  ∧ take (length h) (serve (setup this fs strategy) reqs [] schedule h).2 = h
  ∧ ∀ r, (r < setups schedule)%nat →
      (serve (setup this fs strategy) reqs [] schedule h).2 !! (length h + r)%nat
      = (request (setup this fs strategy) (reqs r) (parts r 0 schedule) h').2
        !! length h'.
Proof.
  destruct (serve_store this fs strategy reqs (length h) schedule [] h)
    as (H1 & H2 & _ & H4); [cbn; lia|done|].
  split; [done|]. split.
  - apply list_eq. intros a. destruct (decide (a < length h)%nat) as [Ha|Ha].
    + rewrite lookup_take_lt by done. by apply H2.
    + rewrite lookup_take_ge by lia. symmetry. apply lookup_ge_None. lia.
  - intros r Hr. rewrite request_setup_run. cbn [snd].
    rewrite lookup_app_r, Nat.sub_diag by lia. cbn.
    apply H4; cbn; lia.
Qed.

(** ** Declarations and the caller's filter *)

(** X13. The answers to the parts of a field depend on the declarations
    only through the last declaration of that field's name: two declaration
    lists that agree on it give the same answers to those parts, so that
    declaring a name again replaces its earlier declaration, and
    declarations of other names, and their order, do not matter. *)
Theorem answers_depend_on_own_declaration (this : Multer) (fs fs' : list Field)
    (strategy strategy' : Strategy) (h h' : Heap) (req : FastifyRequest)
    (files : list File) (n : string) :
  declaration fs n = declaration fs' n →
  answersFor n files (request (setup this fs strategy) req files h).1
  = answersFor n files (request (setup this fs' strategy') req files h').1.
Proof.
  intros Hd. rewrite !request_setup_run. cbn [fst].
  rewrite (enforceAll_answersFor _ _ _ _ (initial fs) (initial fs') ).
  - by rewrite (enforceAll_answersFor _ _ _ _ (initial fs') (initial fs')).
  - by rewrite !initial_lookup, Hd.
Qed.

(** The limit check does not look at the caller's filter. *)
Lemma enforceAll_filter_blind (ff ff' : FileFilter) (req : FastifyRequest)
    (files : list File) :
  ∀ o : FilesLeft,
    passed <$> (enforceAll ff o req files).1 = passed <$> (enforceAll ff' o req files).1
    ∧ (enforceAll ff o req files).2 = (enforceAll ff' o req files).2.
Proof.
  induction files as [|g rest IH]; intros o; [done|].
  cbn [enforceAll]. unfold enforce.
  destruct (le_zero (or_zero (o !! fieldname g))).
  - destruct (IH o) as [IH1 IH2].
    destruct (enforceAll ff o req rest), (enforceAll ff' o req rest).
    cbn [fst snd fmap list_fmap] in *. by rewrite IH1, IH2.
  - destruct (IH (<[fieldname g := minus_one (o !! fieldname g)]> o)) as [IH1 IH2].
    destruct (enforceAll ff _ req rest), (enforceAll ff' _ req rest).
    cbn [fst snd fmap list_fmap] in *. by rewrite IH1, IH2.
Qed.

(** X14. Budget is used up by handing a part to the caller's filter,
    whatever that filter then does: with the same declarations and the same
    parts, two instances with different filters hand on and turn down the same
    parts and leave the same counters, so a file that the caller's filter
    refuses still counts against [maxCount]. *)
Theorem budget_blind_to_caller_filter (this this' : Multer) (fs : list Field)
    (strategy : Strategy) (h : Heap) (req : FastifyRequest) (files : list File) :
  passed <$> (request (setup this fs strategy) req files h).1
  = passed <$> (request (setup this' fs strategy) req files h).1
  ∧ (request (setup this fs strategy) req files h).2
    = (request (setup this' fs strategy) req files h).2.
Proof.
  rewrite !request_setup_run. cbn [fst snd].
  destruct (enforceAll_filter_blind (fileFilter this) (fileFilter this') req files
              (initial fs)) as [H1 H2].
  by rewrite H1, H2.
Qed.

End Multer.

(** ** Concrete runs *)

(** Engines told apart by how they were built, an instance made from the
    empty options, file parts and declarations by name. *)
Abbreviation disk := (Some : DiskStorageOptions → option DiskStorageOptions).
Abbreviation memory := (λ _ : unit, @None DiskStorageOptions).
Abbreviation plain :=
  (new_Multer (FastifyRequest:=unit) (Limits:=unit) disk memory tt emptyOptions).
Abbreviation part n :=
  {| fieldname := n; originalname := "a.txt"; encoding := "7bit";
     mimetype := "text/plain" |}.
Abbreviation decl n k := {| name := n; maxCount := Some k%N |}.

(** The run of the spec's example: fields [a] (two files) and [b] (one file),
    parts [a, a, a, b]. *)
Example run_a_a_a_b :
  (request (setup plain [decl "a" 2; decl "b" 1] OBJECT) tt
     [part "a"; part "a"; part "a"; part "b"] []).1
  = [callFileFilter allowAll tt (part "a"); callFileFilter allowAll tt (part "a");
     rejection (part "a"); callFileFilter allowAll tt (part "b")].
Proof. reflexivity. Qed.

(** Two requests on one [single("a")] middleware, their parts interleaved:
    each gets its first file through. *)
Example run_two_requests :
  let out := (serve (setup plain [decl "a" 1] VALUE) (λ _, tt) []
                [NewRequest; NewRequest; FilePart 1 (part "a"); FilePart 0 (part "a");
                 FilePart 1 (part "a"); FilePart 0 (part "a")] []).1 in
  answers 0 out = [callFileFilter allowAll tt (part "a"); rejection (part "a")]
  ∧ answers 1 out = [callFileFilter allowAll tt (part "a"); rejection (part "a")].
Proof. split; reflexivity. Qed.

(** C1, as stated, fails when a field name is declared twice: with
    [{a, maxCount: 2}] followed by [{a, maxCount: 1}] the second part for [a]
    is one of the first two, and is turned down. *)
Lemma first_k_parts_pass_counterexample :
  let fs := [decl "a" 2; decl "a" 1] in
  let files := [part "a"; part "a"] in
  decl "a" 2 ∈ fs
  ∧ files !! 1%nat = Some (part "a")
  ∧ (earlier "a" files 1 < N.to_nat 2)%nat
  ∧ (request (setup plain fs OBJECT) tt files []).1 !! 1%nat
    = Some (rejection (part "a"))
  ∧ (request (setup plain fs OBJECT) tt files []).1 !! 1%nat
    ≠ Some (callFileFilter (fileFilter plain) tt (part "a")).
Proof.
  cbv zeta. split; [by left|]. split; [done|]. split; [cbv; lia|].
  split; [done|]. vm_compute. discriminate.
Qed.

Lemma first_k_parts_pass_witness :
  let fs := [decl "a" 2] in
  let files := [part "a"; part "b"; part "a"; part "a"] in
  (files !! 3%nat = Some (part "a")
   ∧ declaration fs "a" = Some (decl "a" 2)
   ∧ (request (setup plain fs OBJECT) tt files []).1 !! 3%nat
     = Some (rejection (part "a")))
  ∧ (files !! 1%nat = Some (part "b")
     ∧ (request (setup plain fs OBJECT) tt files []).1 !! 1%nat
       = Some (rejection (part "b"))).
Proof.
  cbv zeta. split.
  - split; [reflexivity|]. split; [reflexivity|].
    exact (proj1 (first_k_parts_pass plain [decl "a" 2] OBJECT [] tt
                    [part "a"; part "b"; part "a"; part "a"] 3 (part "a") eq_refl)
             (decl "a" 2) 2%N eq_refl eq_refl).
  - split; [reflexivity|].
    apply (proj2 (first_k_parts_pass plain [decl "a" 2] OBJECT [] tt
                    [part "a"; part "b"; part "a"; part "a"] 1 (part "b") eq_refl)).
    intros f Hin. apply list_elem_of_singleton in Hin. rewrite Hin. discriminate.
Defined.

(** C2, as stated, fails for the empty destination: the options supply
    [dest], no engine, and the instance stores in memory. *)
Lemma storage_precedence_counterexample :
  let options : Options (FastifyRequest:=unit) (Limits:=unit) :=
    {| options_storage := None; options_dest := Some ""; options_limits := None;
       options_preservePath := None; options_fileFilter := None |} in
  options_storage options = None
  ∧ options_dest options = Some ""
  ∧ storage (new_Multer disk memory tt options) = memory tt
  ∧ storage (new_Multer disk memory tt options) ≠ disk {| destination := "" |}.
Proof. cbv zeta. repeat split; done. Qed.

Lemma storage_precedence_witness :
  let options : Options (FastifyRequest:=unit) (Limits:=unit) :=
    {| options_storage := None; options_dest := Some "uploads";
       options_limits := None; options_preservePath := None;
       options_fileFilter := None |} in
  (options_storage options = None ∧ options_dest options = Some "uploads"
   ∧ "uploads" ≠ "")
  ∧ storage (new_Multer disk memory tt options)
    = disk {| destination := "uploads" |}.
Proof.
  cbv zeta.
  assert ("uploads" ≠ "") as Hne by discriminate.
  split; [split; [reflexivity|split; [reflexivity|exact Hne]]|].
  exact (proj1 (proj2 (storage_precedence disk memory tt
    {| options_storage := None; options_dest := Some "uploads";
       options_limits := None; options_preservePath := None;
       options_fileFilter := None |})) "uploads" eq_refl eq_refl Hne).
Defined.

Lemma default_filter_accepts_witness :
  options_fileFilter (emptyOptions (FastifyRequest:=unit) (Limits:=unit)
                        (StorageEngine:=option DiskStorageOptions)) = None
  ∧ fileFilter plain tt (part "a") = [CallCb None (Some true)].
Proof.
  split; [reflexivity|].
  exact (default_filter_accepts disk memory tt emptyOptions tt (part "a") eq_refl).
Defined.

(** C4, as stated, fails when a field name is declared twice: [a] is declared
    with [maxCount: 2] and is mapped to 1, the count of its later
    declaration. *)
Lemma limit_state_initialized_counterexample :
  let fs := [decl "a" 2; decl "a" 1] in
  decl "a" 2 ∈ fs
  ∧ (setup plain fs OBJECT []).2 !! 0%nat ≫= (.!! "a") = Some (Int 1)
  ∧ (setup plain fs OBJECT []).2 !! 0%nat ≫= (.!! "a") ≠ Some (Int (Z.of_N 2)).
Proof.
  cbv zeta. split; [by left|]. split; [done|]. vm_compute. discriminate.
Qed.

Lemma limit_state_initialized_witness :
  let fs := [decl "a" 2; {| name := "b"; maxCount := None |}] in
  ∃ filesLeft : FilesLeft,
    (setup plain fs OBJECT []).2 = [filesLeft]
    ∧ filesLeft !! "a" = Some (Int 2)
    ∧ filesLeft !! "b" = Some Infinity
    ∧ filesLeft !! "c" = None.
Proof.
  cbv zeta.
  destruct (limit_state_initialized plain
              [decl "a" 2; {| name := "b"; maxCount := None |}] OBJECT [])
    as (filesLeft & Hstore & _ & Hnum & Hinf & Hnone).
  exists filesLeft. split; [exact Hstore|]. split; [|split].
  - exact (Hnum (decl "a" 2) 2%N eq_refl eq_refl).
  - exact (Hinf {| name := "b"; maxCount := None |} eq_refl eq_refl).
  - apply (Hnone "c"). intros f Hin.
    apply elem_of_cons in Hin as [->|Hin]; [discriminate|].
    apply list_elem_of_singleton in Hin as ->. discriminate.
Defined.

Lemma single_rejects_second_file_witness :
  let files := [part "avatar"; part "other"; part "avatar"] in
  ((0 < 2)%nat
   ∧ files !! 0%nat = Some (part "avatar") ∧ files !! 2%nat = Some (part "avatar"))
  ∧ (request (setup plain [decl "avatar" 1] VALUE) tt files []).1 !! 2%nat
    = Some [CallCb (Some (MulterError "LIMIT_UNEXPECTED_FILE" "avatar")) None].
Proof.
  cbv zeta.
  assert (0 < 2)%nat as Hlt by (apply Nat.lt_0_succ).
  split; [split; [exact Hlt|split; reflexivity]|].
  exact (proj2 (proj2 (single_rejects_second_file (λ st, st) plain "avatar" [] tt
    [part "avatar"; part "other"; part "avatar"] 2 0 (part "avatar") (part "avatar")
    Hlt eq_refl eq_refl eq_refl eq_refl))).
Defined.

(** C8, as stated, fails: for a string argument the factory throws a
    TypeError, and no error with the code INVALID_OPTIONS. *)
Lemma multer_argument_counterexample :
  let v : JsValue (FastifyRequest:=unit) (Limits:=unit)
            (StorageEngine:=option DiskStorageOptions) := js_string "uploads" in
  v ≠ js_undefined
  ∧ ¬ (typeof v = "object" ∧ v ≠ js_null)
  ∧ multer disk memory tt v = inl (TypeError "Expected object for argument options")
  ∧ ¬ ∃ field, multer disk memory tt v = inl (MulterError "INVALID_OPTIONS" field).
Proof.
  intros v. split; [discriminate|]. split; [by intros [Hty _]|].
  split; [reflexivity|]. intros [field Hm]. discriminate Hm.
Qed.

Lemma multer_argument_witness :
  let v : JsValue (FastifyRequest:=unit) (Limits:=unit)
            (StorageEngine:=option DiskStorageOptions) := js_string "uploads" in
  (v ≠ js_undefined ∧ ¬ (typeof v = "object" ∧ v ≠ js_null))
  ∧ multer disk memory tt v = inl (TypeError "Expected object for argument options").
Proof.
  intros v.
  assert (v ≠ js_undefined) as Hu by discriminate.
  assert (¬ (typeof v = "object" ∧ v ≠ js_null)) as Ho
    by (intros [Hty _]; discriminate Hty).
  split; [split; [exact Hu|exact Ho]|].
  exact (proj1 (multer_argument disk memory tt) v Hu Ho).
Defined.

(** ** Concrete runs of the other entry points *)

Lemma unbounded_field_always_passes_witness :
  let fs := [{| name := "photos"; maxCount := None |}] in
  let files := [part "photos"; part "photos"; part "photos"] in
  (files !! 2%nat = Some (part "photos")
   ∧ declaration fs "photos" = Some {| name := "photos"; maxCount := None |})
  ∧ (request (setup plain fs OBJECT) tt files []).1 !! 2%nat
    = Some (callFileFilter (fileFilter plain) tt (part "photos")).
Proof.
  cbv zeta. split; [split; reflexivity|].
  exact (unbounded_field_always_passes plain
           [{| name := "photos"; maxCount := None |}] OBJECT [] tt
           [part "photos"; part "photos"; part "photos"] 2 (part "photos")
           {| name := "photos"; maxCount := None |} eq_refl eq_refl eq_refl).
Defined.

Lemma array_limits_witness :
  let files := [part "photos"; part "photos"; part "photos"] in
  files !! 2%nat = Some (part "photos")
  ∧ (request (setup plain [decl "photos" 2] ARRAY) tt files []).1 !! 2%nat
    = Some (rejection (part "photos")).
Proof.
  cbv zeta. split; [reflexivity|].
  exact (proj2 (proj2 (proj2 (proj2
    (array_limits (λ st, st) plain "photos" (Some 2%N) [] tt
       [part "photos"; part "photos"; part "photos"] 2 (part "photos") eq_refl))))
    2%N eq_refl eq_refl).
Defined.

Lemma rejection_is_final_witness :
  let files := [part "a"; part "a"; part "b"; part "a"] in
  ((1 < 3)%nat ∧ files !! 1%nat = Some (part "a") ∧ files !! 3%nat = Some (part "a")
   ∧ (request (setup plain [decl "a" 1; decl "b" 1] OBJECT) tt files []).1 !! 1%nat
     = Some (rejection (part "a")))
  ∧ (request (setup plain [decl "a" 1; decl "b" 1] OBJECT) tt files []).1 !! 3%nat
    = Some (rejection (part "a")).
Proof.
  cbv zeta.
  assert (1 < 3)%nat as Hlt by (apply Nat.lt_succ_r, Nat.le_succ_diag_r).
  split; [split; [exact Hlt|repeat split; reflexivity]|].
  exact (rejection_is_final plain [decl "a" 1; decl "b" 1] OBJECT [] tt
           [part "a"; part "a"; part "b"; part "a"] 3 1 (part "a") (part "a")
           Hlt eq_refl eq_refl eq_refl eq_refl).
Defined.

Lemma passed_per_field_witness :
  let fs := [decl "a" 2; decl "b" 1] in
  let files := [part "a"; part "b"; part "a"; part "a"] in
  (declaration fs "a" = Some (decl "a" 2) ∧ (2 ≤ 2 ^ 53)%N)
  ∧ passedCount (answersFor "a" files (request (setup plain fs OBJECT) tt files []).1)
    = 2%nat
  ∧ (request (setup plain fs OBJECT) tt files []).2 !! 0%nat ≫= (.!! "a")
    = Some (Int 0).
Proof.
  cbv zeta.
  assert (2 ≤ 2 ^ 53)%N as Hk by (apply N.leb_le; reflexivity).
  split; [split; [reflexivity|exact Hk]|].
  exact (passed_per_field plain [decl "a" 2; decl "b" 1] OBJECT [] tt
           [part "a"; part "b"; part "a"; part "a"] "a" (decl "a" 2) 2%N
           eq_refl eq_refl Hk).
Defined.

Lemma total_passed_bounded_witness :
  let fs := [decl "a" 2; decl "b" 1] in
  let files := [part "a"; part "b"; part "a"; part "a"; part "b"] in
  (∀ f, f ∈ fs → is_Some (maxCount f))
  ∧ Z.of_nat (passedCount (request (setup plain fs OBJECT) tt files []).1) ≤ 3.
Proof.
  cbv zeta.
  assert (∀ f, f ∈ [decl "a" 2; decl "b" 1] → is_Some (maxCount f)) as Hall.
  { intros f Hin. apply elem_of_cons in Hin as [->|Hin]; [by eexists|].
    apply list_elem_of_singleton in Hin as ->. by eexists. }
  split; [exact Hall|].
  exact (total_passed_bounded plain [decl "a" 2; decl "b" 1] OBJECT [] tt
           [part "a"; part "b"; part "a"; part "a"; part "b"] Hall).
Defined.

Lemma answers_depend_on_own_declaration_witness :
  let files := [part "a"; part "b"; part "a"] in
  declaration [decl "a" 2; decl "b" 1; decl "a" 1] "a" = declaration [decl "a" 1] "a"
  ∧ answersFor "a" files
      (request (setup plain [decl "a" 2; decl "b" 1; decl "a" 1] OBJECT) tt files []).1
    = answersFor "a" files (request (setup plain [decl "a" 1] ARRAY) tt files []).1.
Proof.
  cbv zeta. split; [reflexivity|].
  exact (answers_depend_on_own_declaration plain
           [decl "a" 2; decl "b" 1; decl "a" 1] [decl "a" 1] OBJECT ARRAY [] [] tt
           [part "a"; part "b"; part "a"] "a" eq_refl).
Defined.
